(** * cpml: metadata codec, description normaliser and catalogue renderer

    A shallow embedding of the pure core of [src/app.py] (the methods of
    [MainWindow] that parse, normalise, re-serialise and render the metadata
    of one catalogue folder), with the properties of the specification
    proved about it.

    Conventions of the embedding.
    - A Python [str] is a list of Unicode code points ([pystr], code points
      in [N]); the built-in string methods the source calls ([strip],
      [splitlines], [startswith], [split], [join], [replace],
      [html.escape]) are written out over that representation.
    - A parsed JSON document is the inductive type [json]; a Python [dict]
      with string keys is a [gmap pystr json], [None] is [JNull].
    - Library calls whose result is not computed by this repository
      (Python's [str] of a list or dict, [json.loads], the lower-cased
      suffix of a [Path], file reads) are inputs of the model. *)

From Stdlib Require Import ZArith NArith Ascii String DecimalString.
From Stdlib Require Import DecimalPos DecimalZ.
From stdpp Require Import gmap list.

Set Warnings "-register-all".

(** ** Python strings as code-point lists *)

Abbreviation pystr := (list N).

Module PyStr.

Local Open Scope N_scope.

(** An ASCII literal as a code-point list. *)
Definition lit (s : string) : pystr :=
  map N_of_ascii (list_ascii_of_string s).

Definition LF : N := 10.
Definition CR : N := 13.

(** [str.isspace] on one code point: the characters [str.strip] removes. *)
Definition isspace (c : N) : bool :=
  ((9 <=? c) && (c <=? 13)) || ((28 <=? c) && (c <=? 32))
  || (c =? 133) || (c =? 160) || (c =? 5760)
  || ((8192 <=? c) && (c <=? 8202))
  || (c =? 8232) || (c =? 8233) || (c =? 8239) || (c =? 8287)
  || (c =? 12288).

(** The line boundaries of [str.splitlines]; CR LF counts as one. *)
Definition islinebreak (c : N) : bool :=
  ((10 <=? c) && (c <=? 13)) || ((28 <=? c) && (c <=? 30))
  || (c =? 133) || (c =? 8232) || (c =? 8233).

Fixpoint lstrip (s : pystr) : pystr :=
  match s with
  | [] => []
  | c :: r => if isspace c then lstrip r else s
  end.

Fixpoint rstrip (s : pystr) : pystr :=
  match s with
  | [] => []
  | c :: r =>
      match rstrip r with
      | [] => if isspace c then [] else [c]
      | r' => c :: r'
      end
  end.

Definition strip (s : pystr) : pystr := rstrip (lstrip s).

(** [s.strip(".")]-style stripping of one given character. *)
Fixpoint lstrip_char (d : N) (s : pystr) : pystr :=
  match s with
  | [] => []
  | c :: r => if c =? d then lstrip_char d r else s
  end.

Fixpoint rstrip_char (d : N) (s : pystr) : pystr :=
  match s with
  | [] => []
  | c :: r =>
      match rstrip_char d r with
      | [] => if c =? d then [] else [c]
      | r' => c :: r'
      end
  end.

Definition strip_char (d : N) (s : pystr) : pystr :=
  rstrip_char d (lstrip_char d s).

(** Truth value of a string: non-empty. *)
Definition nonempty (s : pystr) : bool :=
  match s with [] => false | _ => true end.

Fixpoint startswith (s p : pystr) : bool :=
  match p, s with
  | [], _ => true
  | _ :: _, [] => false
  | a :: p', b :: s' => (a =? b) && startswith s' p'
  end.

(** [s.split(sep, 1)[1]] for a one-character [sep] that occurs in [s]:
    what follows the first occurrence (empty when there is none, where
    Python would raise; the source only calls it after [startswith]). *)
Fixpoint after_first (sep : N) (s : pystr) : pystr :=
  match s with
  | [] => []
  | c :: r => if c =? sep then r else after_first sep r
  end.

(** [sep.join(parts)]. *)
Fixpoint join (sep : pystr) (parts : list pystr) : pystr :=
  match parts with
  | [] => []
  | [p] => p
  | p :: rest => p ++ sep ++ join sep rest
  end.

(** [s.splitlines()]: [cur] is the current line, reversed. *)
Fixpoint splitlines_from (cur : pystr) (s : pystr) : list pystr :=
  match s with
  | [] => match cur with [] => [] | _ => [rev cur] end
  | c :: r =>
      if islinebreak c then
        match r with
        | c' :: r' =>
            if (c =? CR) && (c' =? LF)
            then rev cur :: splitlines_from [] r'
            else rev cur :: splitlines_from [] r
        | [] => [rev cur]
        end
      else splitlines_from (c :: cur) r
  end.

Definition splitlines (s : pystr) : list pystr := splitlines_from [] s.

(** [s.replace(old, new)] for a one-character [old]. *)
Definition replace_char (old : N) (new : pystr) (s : pystr) : pystr :=
  flat_map (fun c => if c =? old then new else [c]) s.

(** [html.escape(s, quote=True)]. *)
Definition escape_char (c : N) : pystr :=
  if c =? 38 then lit "&amp;"
  else if c =? 60 then lit "&lt;"
  else if c =? 62 then lit "&gt;"
  else if c =? 34 then lit "&quot;"
  else if c =? 39 then lit "&#x27;"
  else [c].

Definition escape (s : pystr) : pystr := flat_map escape_char s.

(** [str(n)] for an [int]. *)
Definition str_of_Z (z : Z) : pystr :=
  lit (NilZero.string_of_int (Z.to_int z)).

Definition str_of_nat (n : nat) : pystr := str_of_Z (Z.of_nat n).


End PyStr.

Import PyStr.

(** ** JSON trees *)

(** A Python [float] as [json.loads] produces it, identified by its [repr]
    (which Python prints for [str] too): digits, sign, point, exponent
    mark, and the letters of [inf] and [nan]. *)
Definition float_char (c : N) : bool :=
  ((48 <=? c) && (c <=? 57))%N
  || bool_decide (c ∈ lit "+-.einfa").

Record pyfloat := {
  float_repr : pystr;
  float_repr_ok : forallb float_char float_repr = true
}.

Inductive json : Type :=
| JNull
| JBool (b : bool)
| JInt (n : Z)
| JFloat (x : pyfloat)
| JStr (s : pystr)
| JList (items : list json)
| JDict (fields : gmap pystr json).

(** [d.get(k)]: [None] when the key is absent. *)
Definition dict_get (d : gmap pystr json) (k : pystr) : json :=
  default JNull (d !! k).

(** [d.get(k, dflt)]. *)
Definition dict_get_or (d : gmap pystr json) (k : pystr) (dflt : json) : json :=
  default dflt (d !! k).

(** Python truth value of a JSON value. *)
Definition truthy (v : json) : bool :=
  match v with
  | JNull => false
  | JBool b => b
  | JInt n => negb (n =? 0)%Z
  | JFloat x =>
      negb (bool_decide (float_repr x = lit "0.0")
            || bool_decide (float_repr x = lit "-0.0"))
  | JStr s => nonempty s
  | JList items => match items with [] => false | _ => true end
  | JDict fields => negb (bool_decide (fields = ∅))
  end.

(** [a or b]. *)
Definition py_or (a b : json) : json := if truthy a then a else b.

Definition is_list (v : json) : bool :=
  match v with JList _ => true | _ => false end.

Definition is_dict (v : json) : bool :=
  match v with JDict _ => true | _ => false end.

(** [enumerate(l)]. *)
Definition enumerate {A} (l : list A) : list (nat * A) := imap pair l.

(** Key names and fixed texts of the source. *)
Definition k_name := lit "name".
Definition k_price := lit "price".
Definition k_description := lit "description".
Definition k_desc := lit "desc".
Definition k_description_blocks := lit "description_blocks".
Definition k_sections := lit "sections".
Definition k_highlights := lit "highlights".
Definition k_title := lit "title".
Definition k_label := lit "label".
Definition k_text := lit "text".
Definition k_content := lit "content".
Definition k_value := lit "value".

(** The fullwidth colon U+FF1A. *)
Definition COLON : N := 65306%N.
(** "名称：", "介绍：", "价格：". *)
Definition LABEL_NAME : pystr := [21517; 31216; COLON]%N.
Definition LABEL_DESC : pystr := [20171; 32461; COLON]%N.
Definition LABEL_PRICE : pystr := [20215; 26684; COLON]%N.
(** "要点 " (followed by the 1-based position). *)
Definition POINT_PREFIX : pystr := [35201; 28857; 32]%N.

(** ** The canonical records *)

Record DescriptionBlock := {
  title : pystr;
  content : pystr
}.

(** The dict [_normalize_metadata] and [_parse_legacy_metadata] return. *)
Record Normalized := {
  n_name : pystr;
  n_price : pystr;
  n_description : pystr;
  n_description_blocks : list DescriptionBlock
}.

(** The failures of parsing ([ValueError] with these messages in the
    source), under the names the specification gives them. *)
Inductive MetadataError :=
| UnreadableMetadata            (* "无法读取信息文件" *)
| EmptyMetadata                 (* "信息文件为空" *)
| MalformedJson (msg : pystr)   (* "JSON 解析失败：{msg}" *)
| InvalidMetadataShape          (* "JSON 信息文件必须是对象结构" *)
| MissingMetadataFile.          (* "缺少信息文件" *)

(** ** The codec *)

Section Codec.

(** Python's [str] of a list or of a dict (their [repr]). *)
Variable repr_container : json -> pystr.

(** [str(v)]. *)
Definition py_str (v : json) : pystr :=
  match v with
  | JNull => lit "None"
  | JBool true => lit "True"
  | JBool false => lit "False"
  | JInt n => str_of_Z n
  | JFloat x => float_repr x
  | JStr s => s
  | JList _ | JDict _ => repr_container v
  end.

(** [_block_from_mapping(mapping, idx)]. *)
Definition block_from_mapping (mapping : json) (idx : option nat)
  : option DescriptionBlock :=
  match mapping with
  | JDict m =>
      let title_raw :=
        py_or (py_or (dict_get m k_title) (dict_get m k_label))
              (dict_get m k_name) in
      let content_raw :=
        py_or (py_or (py_or (py_or (dict_get m k_text) (dict_get m k_content))
                            (dict_get m k_desc))
                     (dict_get m k_description))
              (dict_get m k_value) in
      match content_raw with
      | JNull => None
      | _ =>
          let content := strip (py_str content_raw) in
          if nonempty content then
            let title :=
              if truthy title_raw then strip (py_str title_raw) else [] in
            let title :=
              match idx with
              | Some i =>
                  if nonempty title then title
                  else POINT_PREFIX ++ str_of_nat (i + 1)
              | None => title
              end in
            Some {| title := title; content := content |}
          else None
      end
  | _ => None
  end.

(** One iteration of the loop of [_coerce_desc_value] over
    [enumerate(value)], on the two lists it appends to. *)
Definition desc_step (st : list pystr * list DescriptionBlock)
    (e : nat * json) : list pystr * list DescriptionBlock :=
  let '(paragraphs, blocks) := st in
  let '(idx, item) := e in
  match item with
  | JStr s =>
      let cleaned := strip s in
      if nonempty cleaned then (paragraphs ++ [cleaned], blocks) else st
  | JDict _ =>
      match block_from_mapping item (Some idx) with
      | Some block => (paragraphs, blocks ++ [block])
      | None => st
      end
  | _ => st
  end.

(** [_coerce_desc_value(value)].  The last [return] of the source
    ([str(value).strip()]) is reached by no JSON value: [bool] is an [int]
    for [isinstance]. *)
Definition coerce_desc_value (value : json) : pystr * list DescriptionBlock :=
  match value with
  | JNull => ([], [])
  | JStr s => (strip s, [])
  | JBool _ | JInt _ | JFloat _ => (py_str value, [])
  | JList items =>
      let '(paragraphs, blocks) := foldl desc_step ([], []) (enumerate items) in
      (join [LF] paragraphs, blocks)
  | JDict _ =>
      ([], match block_from_mapping value None with
           | Some block => [block]
           | None => []
           end)
  end.

(** One iteration of the loop of [_coerce_blocks]. *)
Definition blocks_step (blocks : list DescriptionBlock) (e : nat * json)
  : list DescriptionBlock :=
  let '(idx, item) := e in
  match item with
  | JDict _ =>
      match block_from_mapping item (Some idx) with
      | Some block => blocks ++ [block]
      | None => blocks
      end
  | JStr s =>
      let text := strip s in
      if nonempty text
      then blocks ++ [{| title := POINT_PREFIX ++ str_of_nat (idx + 1);
                         content := text |}]
      else blocks
  | _ => blocks
  end.

(** [_coerce_blocks(value)]. *)
Definition coerce_blocks (value : json) : list DescriptionBlock :=
  match value with
  | JList items => foldl blocks_step [] (enumerate items)
  | JDict _ =>
      match block_from_mapping value None with
      | Some block => [block]
      | None => []
      end
  | _ => []
  end.

(** [_normalize_metadata(data)]. *)
Definition normalize_metadata (data : json) : MetadataError + Normalized :=
  match data with
  | JDict d =>
      let name := strip (py_str (dict_get_or d k_name (JStr []))) in
      let price := strip (py_str (dict_get_or d k_price (JStr []))) in
      let '(desc_text, blocks) := coerce_desc_value (dict_get d k_description) in
      let desc_text :=
        if nonempty desc_text then desc_text
        else match dict_get d k_desc with
             | JStr s => strip s
             | _ => desc_text
             end in
      let blocks := blocks ++ coerce_blocks (dict_get d k_description_blocks) in
      let blocks := blocks ++ coerce_blocks (dict_get d k_sections) in
      let blocks := blocks ++ coerce_blocks (dict_get d k_highlights) in
      inr {| n_name := name; n_price := price;
             n_description := desc_text;
             n_description_blocks := blocks |}
  | _ => inl InvalidMetadataShape
  end.

(** The state of the loop of [_parse_legacy_metadata]. *)
Record LegacyState := {
  l_name : pystr;
  l_price : pystr;
  description_lines : list pystr;
  collecting_desc : bool
}.

Definition legacy_init : LegacyState :=
  {| l_name := []; l_price := []; description_lines := [];
     collecting_desc := false |}.

(** [line.split("：", 1)[1].strip()]. *)
Definition label_value (line : pystr) : pystr :=
  strip (after_first COLON line).

(** One iteration of the loop over [text.splitlines()]. *)
Definition legacy_step (st : LegacyState) (raw_line : pystr) : LegacyState :=
  let line := strip raw_line in
  if negb (nonempty line) then
    if collecting_desc st
    then {| l_name := l_name st; l_price := l_price st;
            description_lines := description_lines st ++ [[]];
            collecting_desc := true |}
    else st
  else if startswith line LABEL_NAME then
    {| l_name := label_value line; l_price := l_price st;
       description_lines := description_lines st;
       collecting_desc := false |}
  else if startswith line LABEL_DESC then
    {| l_name := l_name st; l_price := l_price st;
       description_lines := [label_value line];
       collecting_desc := true |}
  else if startswith line LABEL_PRICE then
    {| l_name := l_name st; l_price := label_value line;
       description_lines := description_lines st;
       collecting_desc := false |}
  else if collecting_desc st then
    {| l_name := l_name st; l_price := l_price st;
       description_lines := description_lines st ++ [line];
       collecting_desc := true |}
  else st.

(** The filter of the final join: a part is kept when [part.strip()] is
    true or the part is the empty string. *)
Definition keep_part (part : pystr) : bool :=
  nonempty (strip part) || bool_decide (part = []).

(** [_parse_legacy_metadata(text)]. *)
Definition parse_legacy_metadata (text : pystr) : Normalized :=
  let st := foldl legacy_step legacy_init (splitlines text) in
  {| n_name := l_name st;
     n_price := l_price st;
     n_description := strip (join [LF] (filter keep_part (description_lines st)));
     n_description_blocks := [] |}.

(** [json.loads]: the tree, or the message of the [JSONDecodeError]. *)
Variable json_loads : pystr -> pystr + json.

(** [_parse_metadata_file(path)].  Of the path the function reads
    [path.suffix.lower()] and the decoded content ([None] when reading
    raises [OSError]).  The second component of the result is the raw
    metadata: the tree, or the trimmed legacy text. *)
Definition parse_metadata_file (suffix_lower : pystr) (content : option pystr)
  : MetadataError + (Normalized * json) :=
  match content with
  | None => inl UnreadableMetadata
  | Some content =>
      let text := strip content in
      if negb (nonempty text) then inl EmptyMetadata
      else
        let looks_like_json :=
          bool_decide (suffix_lower = lit ".json")
          || startswith (lstrip text) (lit "{") in
        if looks_like_json then
          match json_loads text with
          | inl msg => inl (MalformedJson msg)
          | inr raw =>
              match normalize_metadata raw with
              | inl err => inl err
              | inr normalized => inr (normalized, raw)
              end
          end
        else inr (parse_legacy_metadata text, JStr text)
  end.

End Codec.

(** ** Writing edits back *)

(** The [data] dict of the editor: keys [name], [price], [desc]. *)
Record EditData := {
  d_name : pystr;
  d_price : pystr;
  d_desc : pystr
}.

(** The state of the loop of [_split_paragraphs]: [blocks] and [current]. *)
Definition paragraph_step (st : list pystr * list pystr) (line : pystr)
  : list pystr * list pystr :=
  let '(blocks, current) := st in
  if nonempty (strip line) then (blocks, current ++ [strip line])
  else match current with
       | [] => st
       | _ => (blocks ++ [join (lit " ") current], [])
       end.

(** [_split_paragraphs(text)]. *)
Definition split_paragraphs (text : pystr) : list pystr :=
  if negb (nonempty text) then []
  else
    let '(blocks, current) := foldl paragraph_step ([], []) (splitlines text) in
    match current with
    | [] => blocks
    | _ => blocks ++ [join (lit " ") current]
    end.

(** [_convert_desc_for_json(existing_value, text)]. *)
Definition convert_desc_for_json (existing_value : json) (text : pystr) : json :=
  let stripped := strip text in
  if is_list existing_value then JList (JStr <$> split_paragraphs stripped)
  else JStr stripped.

(** [_prepare_json_payload(raw_meta, data)]. *)
Definition prepare_json_payload (raw_meta : json) (data : EditData)
  : gmap pystr json :=
  let payload := match raw_meta with JDict d => d | _ => ∅ end in
  let payload := <[k_name := JStr (d_name data)]> payload in
  let payload := <[k_price := JStr (d_price data)]> payload in
  let payload :=
    <[k_description :=
        convert_desc_for_json (dict_get payload k_description) (d_desc data)]>
      payload in
  if bool_decide (is_Some (payload !! k_desc))
  then <[k_desc := JStr (d_desc data)]> payload
  else payload.

(** [_build_legacy_text(data)]. *)
Definition build_legacy_text (data : EditData) : pystr :=
  LABEL_NAME ++ d_name data ++ [LF]
  ++ LABEL_DESC ++ d_desc data ++ [LF]
  ++ LABEL_PRICE ++ d_price data ++ [LF].

(** ** Rendering *)

(** A [Path], by what the program observes of it. *)
Record Path := {
  path_name : pystr;             (* [path.name] *)
  path_suffix_lower : pystr;     (* [path.suffix.lower()] *)
  path_exists : bool;            (* [path.exists()] *)
  path_uri : option pystr;       (* [path.resolve().as_uri()], [None] on [OSError] *)
  path_b64 : option pystr        (* base64 of [path.read_bytes()], [None] on [OSError] *)
}.

Record BridalEntry := {
  slug : pystr;
  name : pystr;
  description : pystr;
  price : pystr;
  front : Path;
  back : Path;
  detail1 : Path;
  detail2 : Path;
  description_blocks : list DescriptionBlock;
  metadata_path : pystr;
  raw_metadata : json
}.

(** The closure [to_uri] of [render_page]. *)
Definition to_uri (use_file_uri : bool) (path : Path) : pystr :=
  if use_file_uri then default [] (path_uri path)
  else
    match path_b64 path with
    | Some encoded =>
        let suffix := strip_char 46 (path_suffix_lower path) in
        let suffix := if nonempty suffix then suffix else lit "jpeg" in
        lit "data:image/" ++ suffix ++ lit ";base64," ++ encoded
    | None => []
    end.

(** [_render_inline(value)]. *)
Definition render_inline (value : pystr) : pystr :=
  if nonempty value then escape value else [].

(** [_render_paragraph(value)]. *)
Definition render_paragraph (value : pystr) : pystr :=
  if nonempty value then replace_char LF (lit "<br />") (escape value) else [].

(** "亮点" and "<p>暂无介绍。</p>". *)
Definition HIGHLIGHT : pystr := [20142; 28857]%N.
Definition NO_DESCRIPTION : pystr :=
  lit "<p>" ++ [26242; 26080; 20171; 32461; 12290]%N ++ lit "</p>".

(** One card of the generator expression of [_build_description_html]. *)
Definition render_card (block : DescriptionBlock) : pystr :=
  let heading := render_inline (title block) in
  lit "<article><h3>" ++ (if nonempty heading then heading else HIGHLIGHT)
  ++ lit "</h3><p>" ++ render_paragraph (content block)
  ++ lit "</p></article>".

(** [_build_description_html(entry)]. *)
Definition build_description_html (entry : BridalEntry) : pystr :=
  let blocks :=
    if nonempty (description entry)
    then [lit "<p>" ++ render_paragraph (description entry) ++ lit "</p>"]
    else [] in
  let blocks :=
    match description_blocks entry with
    | [] => blocks
    | dbs =>
        let cards :=
          concat (render_card <$> filter (fun b => nonempty (content b) = true) dbs) in
        if nonempty cards
        then blocks ++ [lit "<div class='desc-grid'>" ++ cards ++ lit "</div>"]
        else blocks
    end in
  match blocks with
  | [] => NO_DESCRIPTION
  | _ => concat blocks
  end.












(** ** Loading a catalogue *)

(** One child of the template directory, by what [load_entries] observes:
    whether each of the two metadata files exists and what reading it
    gives, and the four image paths [folder / "主图正面.jpg"] etc. *)
Record Folder := {
  folder_name : pystr;
  folder_is_dir : bool;
  info_json : option (option pystr);
  info_txt : option (option pystr);
  img_front : Path;
  img_back : Path;
  img_detail1 : Path;
  img_detail2 : Path
}.

(** "信息.json", "信息.txt" and the reserved folder name "模板". *)
Definition INFO_JSON : pystr := [20449; 24687]%N ++ lit ".json".
Definition INFO_TXT : pystr := [20449; 24687]%N ++ lit ".txt".
Definition RESERVED_FOLDER : pystr := [27169; 26495]%N.

(** What [load_entries] reports in a message box. *)
Inductive Warning :=
| MetadataWarning (folder : pystr) (err : MetadataError)
| MissingImagesWarning (folder : pystr) (missing : list pystr).

Section Store.

Variable repr_container : json -> pystr.
Variable json_loads : pystr -> pystr + json.

(** [_load_metadata(folder)]: the normalised metadata, the name of the
    file it came from, and the raw metadata. *)
Definition load_metadata (folder : Folder)
  : MetadataError + (Normalized * pystr * json) :=
  match info_json folder with
  | Some content =>
      match parse_metadata_file repr_container json_loads (lit ".json") content with
      | inl err => inl err
      | inr (normalized, raw_meta) => inr (normalized, INFO_JSON, raw_meta)
      end
  | None =>
      match info_txt folder with
      | Some content =>
          match parse_metadata_file repr_container json_loads (lit ".txt") content with
          | inl err => inl err
          | inr (normalized, raw_meta) => inr (normalized, INFO_TXT, raw_meta)
          end
      | None => inl MissingMetadataFile
      end
  end.

(** One iteration of the loop of [load_entries] over the sorted children,
    on the entries built and the warnings shown so far. *)
Definition load_step (acc : list BridalEntry * list Warning) (folder : Folder)
  : list BridalEntry * list Warning :=
  let '(entries, warnings) := acc in
  if negb (folder_is_dir folder)
     || bool_decide (folder_name folder = RESERVED_FOLDER)
     || startswith (folder_name folder) (lit ".")
  then acc
  else
    match load_metadata folder with
    | inl err => (entries, warnings ++ [MetadataWarning (folder_name folder) err])
    | inr (metadata, meta_path, raw_meta) =>
        let name :=
          if nonempty (n_name metadata) then n_name metadata
          else folder_name folder in
        let images :=
          [img_front folder; img_back folder;
           img_detail1 folder; img_detail2 folder] in
        let missing :=
          path_name <$> filter (fun p => path_exists p = false) images in
        match missing with
        | _ :: _ =>
            (entries,
             warnings ++ [MissingImagesWarning (folder_name folder) missing])
        | [] =>
            (entries ++
               [{| slug := folder_name folder;
                   name := name;
                   description := n_description metadata;
                   price := n_price metadata;
                   front := img_front folder;
                   back := img_back folder;
                   detail1 := img_detail1 folder;
                   detail2 := img_detail2 folder;
                   description_blocks := n_description_blocks metadata;
                   metadata_path := meta_path;
                   raw_metadata := raw_meta |}],
             warnings)
        end
    end.

(** [load_entries] on the sorted children of the template directory. *)
Definition load_entries (folders : list Folder)
  : list BridalEntry * list Warning :=
  foldl load_step ([], []) folders.

End Store.

(** ** The statements of the specification, as definitions *)

(** The shape table for a list value: the trimmed non-empty string
    entries, newline-joined, and the blocks of the objects at their
    positions. *)
Definition string_entry (v : json) : option pystr :=
  match v with JStr s => Some (strip s) | _ => None end.

Definition table_plain (items : list json) : pystr :=
  join [LF] (filter (fun s => s ≠ []) (omap string_entry items)).

Definition object_block (repr_container : json -> pystr) (e : nat * json)
  : option DescriptionBlock :=
  if is_dict e.2 then block_from_mapping repr_container e.2 (Some e.1) else None.

Definition table_blocks (repr_container : json -> pystr) (items : list json)
  : list DescriptionBlock :=
  omap (object_block repr_container) (enumerate items).

Definition TITLE_KEYS : list pystr := [k_title; k_label; k_name].
Definition CONTENT_KEYS : list pystr :=
  [k_text; k_content; k_desc; k_description; k_value].

(** The value of the first key of [keys] that is present in [m]. *)
Definition first_present (m : gmap pystr json) (keys : list pystr) : option json :=
  head (omap (fun k => m !! k) keys).

(** The value of the first key of [keys] whose value is true for Python. *)
Definition first_truthy (m : gmap pystr json) (keys : list pystr) : option json :=
  head (filter (fun v => truthy v = true) (dict_get m <$> keys)).

(** "要点 {position+1}" when a position is supplied, else the empty string. *)
Definition default_title (idx : option nat) : pystr :=
  match idx with
  | Some i => POINT_PREFIX ++ str_of_nat (i + 1)
  | None => []
  end.

(** The object-to-block mapping in the words of the specification: first
    present key, stringified and trimmed. *)
Definition block_by_presence (repr_container : json -> pystr)
    (m : gmap pystr json) (idx : option nat) : option DescriptionBlock :=
  match first_present m CONTENT_KEYS with
  | None => None
  | Some c =>
      let content := strip (py_str repr_container c) in
      if nonempty content then
        Some {| title :=
                  match first_present m TITLE_KEYS with
                  | Some t => strip (py_str repr_container t)
                  | None => default_title idx
                  end;
                content := content |}
      else None
  end.

Definition is_null (v : json) : bool :=
  match v with JNull => true | _ => false end.

(** A dict literal. *)
Definition mkdict (l : list (pystr * json)) : gmap pystr json := list_to_map l.

(** An instance of Python's [repr] of containers for closed examples that
    never print one. *)
Definition repr_unused : json -> pystr := fun _ => [].

(** What the [or]-chains of [_block_from_mapping] select: the first true
    value among the content keys before [value], else whatever [value]
    holds; the trimmed text of the first true value among the title keys. *)
Definition selected_content (m : gmap pystr json) : json :=
  default (dict_get m k_value)
    (first_truthy m [k_text; k_content; k_desc; k_description]).

Definition selected_title (repr_container : json -> pystr)
    (m : gmap pystr json) : pystr :=
  from_option (fun v => strip (py_str repr_container v)) []
    (first_truthy m TITLE_KEYS).

(** The mapping of the counterexample to first-present selection:
    [text] holds the empty string, [content] holds "body". *)
Definition empty_text_mapping : gmap pystr json :=
  mkdict [(k_text, JStr []); (k_content, JStr (lit "body"))].

(** Splitting at blank lines: the run of trimmed non-blank lines before the
    first blank line, and the runs after each blank line. *)
Fixpoint blank_split (lines : list pystr) : list pystr * list (list pystr) :=
  match lines with
  | [] => ([], [])
  | l :: rest =>
      let '(g, gs) := blank_split rest in
      if nonempty (strip l) then (strip l :: g, gs) else ([], g :: gs)
  end.

(** The paragraphs of a text in the words of the specification: blank
    lines separate paragraphs, empty runs are dropped, the lines of a run
    are joined by one space. *)
Definition paragraphs_of (text : pystr) : list pystr :=
  let '(g, gs) := blank_split (splitlines text) in
  join (lit " ") <$> filter (fun run => run ≠ []) (g :: gs).

Definition finish_paragraphs (st : list pystr * list pystr) : list pystr :=
  match st.2 with
  | [] => st.1
  | _ => st.1 ++ [join (lit " ") st.2]
  end.

(** The tree [_prepare_json_payload] starts from. *)
Definition origin_fields (raw_meta : json) : gmap pystr json :=
  match raw_meta with JDict d => d | _ => ∅ end.

(** A tree without the four keys the editor keeps live. *)
Definition without_live_keys (d : gmap pystr json) : gmap pystr json :=
  delete k_name (delete k_price (delete k_description (delete k_desc d))).

(** Texts without white space, and texts without a line boundary. *)
Definition no_space (s : pystr) : bool := forallb (fun c => negb (isspace c)) s.
Definition single_line (s : pystr) : bool := forallb (fun c => negb (islinebreak c)) s.

(** Saving an entry with its fields as parsed: the editor's data, and the
    tree written back. *)
Definition edits_of (n : Normalized) : EditData :=
  {| d_name := n_name n; d_price := n_price n; d_desc := n_description n |}.

Definition reserialized (raw : gmap pystr json) (n : Normalized) : gmap pystr json :=
  prepare_json_payload (JDict raw) (edits_of n).


(** The plain text [_normalize_metadata] settles on. *)
Definition description_text (repr : json -> pystr) (d : gmap pystr json) : pystr :=
  let t := (coerce_desc_value repr (dict_get d k_description)).1 in
  if nonempty t then t
  else match dict_get d k_desc with JStr s => strip s | _ => t end.

(** The example tree of the specification, with a two-paragraph list. *)
Definition two_line_list : gmap pystr json :=
  mkdict [(k_name, JStr (lit "A")); (k_price, JStr (lit "100"));
          (k_description, JList [JStr (lit "line one"); JStr (lit "line two")])].



(** A string is [stripped] when [strip] leaves it alone. *)
Definition stripped (s : pystr) : Prop := strip s = s.

(** What a line of a legacy file is, after trimming. *)
Inductive LineKind :=
| BlankLine
| NameLine (value : pystr)
| DescLine (value : pystr)
| PriceLine (value : pystr)
| OtherLine (line : pystr).

Definition classify (raw_line : pystr) : LineKind :=
  let line := strip raw_line in
  if bool_decide (line = []) then BlankLine
  else if startswith line LABEL_NAME then NameLine (label_value line)
  else if startswith line LABEL_DESC then DescLine (label_value line)
  else if startswith line LABEL_PRICE then PriceLine (label_value line)
  else OtherLine line.

Definition name_value (k : LineKind) : option pystr :=
  match k with NameLine v => Some v | _ => None end.

Definition price_value (k : LineKind) : option pystr :=
  match k with PriceLine v => Some v | _ => None end.

Definition is_desc_line (k : LineKind) : bool :=
  match k with DescLine _ => true | _ => false end.

(** The value of the last line with the given label, empty if none. *)
Definition last_value (value : LineKind -> option pystr) (ks : list LineKind) : pystr :=
  default [] (last (omap value ks)).

(** The continuation of a description: the lines up to the next label,
    a blank line kept as an empty line. *)
Fixpoint continuation (ks : list LineKind) : list pystr :=
  match ks with
  | BlankLine :: rest => [] :: continuation rest
  | OtherLine line :: rest => line :: continuation rest
  | _ => []
  end.

(** The lines of the last description: its first line and continuation. *)
Fixpoint last_description (ks : list LineKind) : list pystr :=
  match ks with
  | [] => []
  | DescLine v :: rest =>
      if existsb is_desc_line rest then last_description rest
      else v :: continuation rest
  | _ :: rest => last_description rest
  end.

(** Legacy parsing in the words of the specification. *)
Definition legacy_by_labels (text : pystr) : Normalized :=
  let ks := classify <$> splitlines text in
  {| n_name := last_value name_value ks;
     n_price := last_value price_value ks;
     n_description := strip (join [LF] (last_description ks));
     n_description_blocks := [] |}.

(** The effect of one classified line on the loop state. *)
Definition apply_kind (st : LegacyState) (k : LineKind) : LegacyState :=
  match k with
  | BlankLine =>
      if collecting_desc st
      then {| l_name := l_name st; l_price := l_price st;
              description_lines := description_lines st ++ [[]];
              collecting_desc := true |}
      else st
  | NameLine v =>
      {| l_name := v; l_price := l_price st;
         description_lines := description_lines st; collecting_desc := false |}
  | DescLine v =>
      {| l_name := l_name st; l_price := l_price st;
         description_lines := [v]; collecting_desc := true |}
  | PriceLine v =>
      {| l_name := l_name st; l_price := v;
         description_lines := description_lines st; collecting_desc := false |}
  | OtherLine line =>
      if collecting_desc st
      then {| l_name := l_name st; l_price := l_price st;
              description_lines := description_lines st ++ [line];
              collecting_desc := true |}
      else st
  end.

Definition kind_stripped (k : LineKind) : Prop :=
  match k with
  | BlankLine => True
  | NameLine v | DescLine v | PriceLine v | OtherLine v => stripped v
  end.

(** The legacy file of the specification:
    "名称：X\n介绍：hello\nworld\n价格：9\n". *)
Definition legacy_example : pystr :=
  LABEL_NAME ++ lit "X" ++ [LF] ++ LABEL_DESC ++ lit "hello" ++ [LF]
  ++ lit "world" ++ [LF] ++ LABEL_PRICE ++ lit "9" ++ [LF].

(** The format detection of [_parse_metadata_file]: the suffix marks JSON
    or the trimmed text starts with an opening brace. *)
Definition looks_structured (suffix_lower text : pystr) : bool :=
  bool_decide (suffix_lower = lit ".json") || startswith text (lit "{").



(** One character of a paragraph: a newline becomes a line break, any
    other character is escaped. *)
Definition paragraph_char (c : N) : pystr :=
  if (c =? LF)%N then lit "<br />" else escape_char c.


(** The extension [to_uri] puts in the MIME type: the lower-cased suffix
    without its dots. *)
Definition extension (path : Path) : pystr :=
  strip_char 46 (path_suffix_lower path).

Definition data_uri (mime encoded : pystr) : pystr :=
  lit "data:" ++ mime ++ lit ";base64," ++ encoded.

(** The image types the file pickers of the application offer (the filter
    of [_pick_image] and [pick_file]: png, jpg, jpeg). *)
Definition RECOGNIZED_EXTENSIONS : list pystr :=
  [lit "png"; lit "jpg"; lit "jpeg"].

(** The MIME type in the words of the specification: derived from a
    recognised extension, [image/jpeg] otherwise. *)
Definition mime_by_recognition (path : Path) : pystr :=
  if bool_decide (extension path ∈ RECOGNIZED_EXTENSIONS)
  then lit "image/" ++ extension path
  else lit "image/jpeg".

(** A readable file with the given lower-cased suffix and base64 content. *)
Definition readable (suffix_lower encoded : pystr) : Path :=
  {| path_name := lit "file" ++ suffix_lower;
     path_suffix_lower := suffix_lower;
     path_exists := true;
     path_uri := Some (lit "file:///file" ++ suffix_lower);
     path_b64 := Some encoded |}.

(** The children [load_entries] passes over. *)
Definition skipped (f : Folder) : bool :=
  negb (folder_is_dir f)
  || bool_decide (folder_name f = RESERVED_FOLDER)
  || startswith (folder_name f) (lit ".").

Definition images_present (f : Folder) : bool :=
  path_exists (img_front f) && path_exists (img_back f)
  && path_exists (img_detail1 f) && path_exists (img_detail2 f).

(** The name the metadata lacks: the key is missing, or holds a string
    that trims to empty. *)
Definition name_missing_or_empty (d : gmap pystr json) : Prop :=
  d !! k_name = None \/ exists s, d !! k_name = Some (JStr s) /\ strip s = [].

(** An image that exists, and a folder "dress-01" whose "信息.json" holds
    the empty object; a [json.loads] that knows that one text. *)
Definition present_image (file_name : pystr) : Path :=
  {| path_name := file_name; path_suffix_lower := lit ".jpg";
     path_exists := true; path_uri := None; path_b64 := None |}.

Definition nameless_folder : Folder :=
  {| folder_name := lit "dress-01"; folder_is_dir := true;
     info_json := Some (Some (lit "{}")); info_txt := None;
     img_front := present_image (lit "front.jpg");
     img_back := present_image (lit "back.jpg");
     img_detail1 := present_image (lit "detail1.jpg");
     img_detail2 := present_image (lit "detail2.jpg") |}.

Definition loads_empty_object (text : pystr) : pystr + json :=
  if bool_decide (text = lit "{}") then inr (JDict ∅)
  else inl (lit "Expecting value").

Definition empty_normalized : Normalized :=
  {| n_name := []; n_price := []; n_description := [];
     n_description_blocks := [] |}.

(** ** More of the program, and the statements about it *)

(** What one item of a list contributes in [_coerce_blocks]: the block of
    an object, or a bare non-empty string under the positional title. *)
Definition item_block (repr_container : json -> pystr) (e : nat * json)
  : option DescriptionBlock :=
  match e.2 with
  | JDict _ => block_from_mapping repr_container e.2 (Some e.1)
  | JStr s =>
      if nonempty (strip s)
      then Some {| title := POINT_PREFIX ++ str_of_nat (e.1 + 1);
                   content := strip s |}
      else None
  | _ => None
  end.

(** The invariant of a description block: trimmed, non-empty content and a
    trimmed title. *)
Definition block_ok (b : DescriptionBlock) : Prop :=
  content b ≠ [] /\ stripped (content b) /\ stripped (title b).

(** A text whose first and last characters are not white space. *)
Definition clean_ends (s : pystr) : Prop :=
  match s with
  | [] => True
  | c :: _ => isspace c = false
              /\ exists c', last s = Some c' /\ isspace c' = false
  end.

(** What parsing returns: trimmed texts and well-formed blocks. *)
Definition normalized_ok (n : Normalized) : Prop :=
  stripped (n_name n) /\ stripped (n_price n) /\ stripped (n_description n)
  /\ Forall block_ok (n_description_blocks n).

(** The blocks a page shows: those with content. *)
Definition content_blocks (entry : BridalEntry) : list DescriptionBlock :=
  filter (fun b => nonempty (content b) = true) (description_blocks entry).

(** The paragraph and the grid of the description markup. *)
Definition description_paragraph (entry : BridalEntry) : pystr :=
  if nonempty (description entry)
  then lit "<p>" ++ render_paragraph (description entry) ++ lit "</p>"
  else [].

Definition description_grid (entry : BridalEntry) : pystr :=
  match content_blocks entry with
  | [] => []
  | bs => lit "<div class='desc-grid'>" ++ concat (render_card <$> bs)
          ++ lit "</div>"
  end.

(** A paragraph as [_split_paragraphs] returns it. *)
Definition paragraph_ok (p : pystr) : Prop :=
  p ≠ [] /\ stripped p /\ single_line p = true.

(** [_write_metadata(path, data, raw_meta)]: the text written to the path,
    of which the function reads [path.suffix.lower()]. *)
Definition write_metadata (json_dumps : gmap pystr json -> pystr)
    (suffix_lower : pystr) (data : EditData) (raw_meta : json) : pystr :=
  if bool_decide (suffix_lower = lit ".json")
  then json_dumps (prepare_json_payload raw_meta data)
  else build_legacy_text data.

(** [EntryEditor.save_changes] with an entry loaded in the editor: the
    data handed to [apply_editor_changes] (without the pending image
    paths), or nothing when the trimmed name or price is empty. *)
Definition save_changes (name_text price_text desc_text : pystr)
  : option EditData :=
  let name := strip name_text in
  let price := strip price_text in
  if negb (nonempty name) || negb (nonempty price) then None
  else Some {| d_name := name; d_price := price; d_desc := strip desc_text |}.

(** [NewEntryDialog.accept]: whether the dialog closes as accepted. *)
Definition dialog_accept (require_images : bool) (file_paths : list pystr)
    (name_text price_text : pystr) : bool :=
  if require_images && negb (forallb nonempty file_paths) then false
  else if negb (nonempty (strip name_text)) then false
  else if negb (nonempty (strip price_text)) then false
  else true.

(** [NewEntryDialog.get_data], without the image paths. *)
Definition get_data (name_text price_text desc_text : pystr) : EditData :=
  {| d_name := strip name_text; d_price := strip price_text;
     d_desc := strip desc_text |}.

(** The metadata [create_entry] writes to "信息.json". *)
Definition create_metadata (data : EditData) : gmap pystr json :=
  <[k_price := JStr (d_price data)]>
    (<[k_description := JStr (d_desc data)]>
       (<[k_name := JStr (d_name data)]> ∅)).

(** A line of a description that legacy parsing reads back as it is:
    trimmed, without a line boundary. *)
Definition plain_line (p : pystr) : Prop :=
  stripped p /\ single_line p = true.

(** A line that carries none of the three labels. *)
Definition unlabeled (p : pystr) : Prop :=
  startswith p LABEL_NAME = false /\ startswith p LABEL_DESC = false
  /\ startswith p LABEL_PRICE = false.

(** The entry [load_entries] builds for a folder. *)
Definition entry_of (f : Folder) (md : Normalized) (meta_path : pystr)
    (raw_meta : json) : BridalEntry :=
  {| slug := folder_name f;
     name := if nonempty (n_name md) then n_name md else folder_name f;
     description := n_description md;
     price := n_price md;
     front := img_front f;
     back := img_back f;
     detail1 := img_detail1 f;
     detail2 := img_detail2 f;
     description_blocks := n_description_blocks md;
     metadata_path := meta_path;
     raw_metadata := raw_meta |}.

(** The names of the images of a folder that do not exist. *)
Definition missing_images (f : Folder) : list pystr :=
  path_name <$> filter (fun p => path_exists p = false)
    [img_front f; img_back f; img_detail1 f; img_detail2 f].

(** What one folder gives: nothing when passed over, else a warning or an
    entry. *)
Definition load_one (repr_container : json -> pystr)
    (json_loads : pystr -> pystr + json) (f : Folder)
  : option (Warning + BridalEntry) :=
  if skipped f then None
  else
    match load_metadata repr_container json_loads f with
    | inl err => Some (inl (MetadataWarning (folder_name f) err))
    | inr (md, meta_path, raw_meta) =>
        match missing_images f with
        | [] => Some (inr (entry_of f md meta_path raw_meta))
        | missing => Some (inl (MissingImagesWarning (folder_name f) missing))
        end
    end.

Definition entry_part (r : Warning + BridalEntry) : option BridalEntry :=
  match r with inr e => Some e | inl _ => None end.

Definition warning_part (r : Warning + BridalEntry) : option Warning :=
  match r with inl w => Some w | inr _ => None end.

(** Three folders: one that loads, one without its back image, one whose
    "信息.json" is broken beside a readable "信息.txt". *)
Definition imageless_folder : Folder :=
  {| folder_name := lit "dress-02"; folder_is_dir := true;
     info_json := Some (Some (lit "{}")); info_txt := None;
     img_front := present_image (lit "front.jpg");
     img_back := {| path_name := lit "back.jpg"; path_suffix_lower := lit ".jpg";
                    path_exists := false; path_uri := None; path_b64 := None |};
     img_detail1 := present_image (lit "detail1.jpg");
     img_detail2 := present_image (lit "detail2.jpg") |}.

Definition broken_folder : Folder :=
  {| folder_name := lit "dress-03"; folder_is_dir := true;
     info_json := Some (Some (lit "{")); info_txt := Some (Some legacy_example);
     img_front := present_image (lit "front.jpg");
     img_back := present_image (lit "back.jpg");
     img_detail1 := present_image (lit "detail1.jpg");
     img_detail2 := present_image (lit "detail2.jpg") |}.

Definition sample_folders : list Folder :=
  [nameless_folder; imageless_folder; broken_folder].

(** "新婚纱", the directory name used when the product name trims to
    empty. *)
Definition DEFAULT_DIR_NAME : pystr := [26032; 23130; 32433]%N.

(** [f"{sanitized}-{idx}"]. *)
Definition numbered (sanitized : pystr) (idx : nat) : pystr :=
  sanitized ++ lit "-" ++ str_of_nat idx.

(** The [while] loop of [_make_unique_dir], at most [fuel] iterations:
    [existing] holds the names under the root for which
    [candidate.exists()] is true. *)
Fixpoint unique_dir_loop (fuel : nat) (existing : gset pystr)
    (sanitized candidate : pystr) (idx : nat) : option pystr :=
  match fuel with
  | 0 => None
  | S fuel' =>
      if bool_decide (candidate ∈ existing)
      then unique_dir_loop fuel' existing sanitized
             (numbered sanitized idx) (idx + 1)
      else Some candidate
  end.

(** [base_name.strip() or "新婚纱"]. *)
Definition sanitize (base_name : pystr) : pystr :=
  if nonempty (strip base_name) then strip base_name else DEFAULT_DIR_NAME.

(** [_make_unique_dir(root, base_name)], as the name chosen under the
    root. *)
Definition make_unique_dir (fuel : nat) (existing : gset pystr)
    (base_name : pystr) : option pystr :=
  unique_dir_loop fuel existing (sanitize base_name) (sanitize base_name) 1.

(** The candidates the loop tries, in order. *)
Definition candidate (sanitized : pystr) (k : nat) : pystr :=
  match k with 0 => sanitized | S _ => numbered sanitized k end.





(** A mapping with a padded [text] and no title. *)
Definition padded_text_mapping : json :=
  JDict (mkdict [(k_text, JStr (lit " t "))]).

(** ** Facts about the string operations *)

Example strip_demo : strip (lit "  a b
 ") = lit "a b".
Proof. reflexivity. Qed.

Example splitlines_demo :
  splitlines [97; 13; 10; 98; 10; 10; 99]%N = [[97]; [98]; []; [99]]%N.
Proof. reflexivity. Qed.

Example str_of_Z_demo : str_of_Z (-120) = lit "-120".
Proof. reflexivity. Qed.

Lemma nonempty_true (s : pystr) : nonempty s = true <-> s ≠ [].
Proof. destruct s; simpl; split; congruence. Qed.

Lemma nonempty_false (s : pystr) : nonempty s = false <-> s = [].
Proof. destruct s; simpl; split; congruence. Qed.

Lemma lstrip_head (s : pystr) :
  match lstrip s with [] => True | c :: _ => isspace c = false end.
Proof.
  induction s as [|c r IH]; simpl; [done|].
  destruct (isspace c) eqn:E; [done|]. simpl. done.
Qed.

Lemma rstrip_head (c : N) (r : pystr) :
  isspace c = false -> exists r', rstrip (c :: r) = c :: r'.
Proof.
  intros E. simpl. destruct (rstrip r); rewrite ?E; eauto.
Qed.

Lemma rstrip_idemp (s : pystr) : rstrip (rstrip s) = rstrip s.
Proof.
  induction s as [|c r IH]; simpl; [done|].
  destruct (rstrip r) as [|c' r'] eqn:E.
  - destruct (isspace c) eqn:Ec; simpl; [done|]. by rewrite Ec.
  - change (rstrip (c :: c' :: r')) with
      (match rstrip (c' :: r') with
       | [] => if isspace c then [] else [c]
       | x => c :: x end).
    by rewrite IH.
Qed.

Lemma lstrip_rstrip_lstrip (s : pystr) :
  lstrip (rstrip (lstrip s)) = rstrip (lstrip s).
Proof.
  pose proof (lstrip_head s) as H.
  destruct (lstrip s) as [|c r]; [done|].
  destruct (rstrip_head c r H) as [r' ->]. simpl. by rewrite H.
Qed.

Lemma strip_idemp (s : pystr) : strip (strip s) = strip s.
Proof.
  unfold strip. rewrite lstrip_rstrip_lstrip. apply rstrip_idemp.
Qed.

Lemma strip_stripped (s : pystr) : stripped (strip s).
Proof. apply strip_idemp. Qed.

Lemma stripped_nil : stripped [].
Proof. reflexivity. Qed.

Lemma rstrip_no_space (s : pystr) :
  forallb (fun c => negb (isspace c)) s = true -> rstrip s = s.
Proof.
  induction s as [|c r IH]; simpl; [done|].
  intros [Hc Hr]%andb_true_iff. rewrite (IH Hr).
  destruct r; [|done]. by destruct (isspace c).
Qed.

Lemma lstrip_no_space (s : pystr) :
  forallb (fun c => negb (isspace c)) s = true -> lstrip s = s.
Proof.
  destruct s as [|c r]; simpl; [done|].
  intros [Hc _]%andb_true_iff. by destruct (isspace c).
Qed.

Lemma stripped_no_space (s : pystr) :
  forallb (fun c => negb (isspace c)) s = true -> stripped s.
Proof.
  intros H. unfold stripped, strip.
  rewrite (lstrip_no_space _ H). by apply rstrip_no_space.
Qed.

(** ** The description normaliser *)

Lemma imap_pair_fmap {A B} (g : A -> B) (f : nat -> nat) (l : list A) :
  imap (fun i x => (f i, x)) (g <$> l) =
  (fun e => (e.1, g e.2)) <$> imap (fun i x => (f i, x)) l.
Proof.
  revert f. induction l as [|x l IH]; intros f; simpl; [done|].
  f_equal. apply (IH (f ∘ S)).
Qed.

Lemma enumerate_fmap {A B} (g : A -> B) (l : list A) :
  enumerate (g <$> l) = (fun e => (e.1, g e.2)) <$> enumerate l.
Proof. apply (imap_pair_fmap g id). Qed.

Lemma snd_imap_pair {A} (f : nat -> nat) (l : list A) :
  (imap (fun i x => (f i, x)) l).*2 = l.
Proof.
  revert f. induction l as [|x l IH]; intros f; simpl; [done|].
  f_equal. apply (IH (f ∘ S)).
Qed.

Lemma snd_enumerate {A} (l : list A) : (enumerate l).*2 = l.
Proof. apply (snd_imap_pair id). Qed.

Lemma omap_after_fmap {A B C} (f : B -> option C) (g : A -> B) (l : list A) :
  omap f (g <$> l) = omap (f ∘ g) l.
Proof. induction l as [|x l IH]; csimpl; [done|]. by rewrite IH. Qed.

Lemma omap_none {A B} (f : A -> option B) (l : list A) :
  (forall x, f x = None) -> omap f l = [].
Proof. intros H. induction l as [|x l IH]; csimpl; [done|]. by rewrite H. Qed.

(** The loop of [_coerce_desc_value], run from any state over any indexed
    items, appends the string entries and the object blocks in order. *)
Lemma desc_loop_spec (repr : json -> pystr) (es : list (nat * json)) ps bs :
  foldl (desc_step repr) (ps, bs) es =
  (ps ++ filter (fun s => s ≠ []) (omap string_entry es.*2),
   bs ++ omap (object_block repr) es).
Proof.
  revert ps bs. induction es as [|[i v] es IH]; intros ps bs.
  { simpl. by rewrite !app_nil_r. }
  cbn [foldl fmap list_fmap omap list_omap snd].
  destruct v; cbn [desc_step string_entry object_block is_dict fst snd];
    try (rewrite IH; reflexivity).
  - destruct (strip s) eqn:E; cbn [nonempty].
    + rewrite IH. by rewrite filter_cons_False by naive_solver.
    + rewrite IH. rewrite filter_cons_True by done.
      by rewrite <- app_assoc.
  - destruct (block_from_mapping repr (JDict fields) (Some i));
      rewrite IH; [|done].
    by rewrite <- app_assoc.
Qed.

Lemma coerce_list_spec (repr : json -> pystr) items :
  coerce_desc_value repr (JList items) =
  (table_plain items, table_blocks repr items).
Proof.
  unfold coerce_desc_value.
  rewrite desc_loop_spec, snd_enumerate. reflexivity.
Qed.

(** C2. The description normaliser follows the shape table: null or absent
    gives no text and no blocks; a string gives its trim; a number or a
    boolean gives its [str]; a list gives the trimmed non-empty string
    entries joined by newlines together with the blocks of its objects at
    their positions (so a list of strings has no blocks, a list of objects
    no text); a single object gives no text and at most one block. *)
Theorem coerce_desc_value_table (repr : json -> pystr) :
  coerce_desc_value repr JNull = ([], [])
  /\ (forall d,
        coerce_desc_value repr (dict_get (delete k_description d) k_description)
        = ([], []))
  /\ (forall s, coerce_desc_value repr (JStr s) = (strip s, []))
  /\ (forall n, coerce_desc_value repr (JInt n) = (str_of_Z n, []))
  /\ (forall x, coerce_desc_value repr (JFloat x) = (float_repr x, []))
  /\ (forall b, coerce_desc_value repr (JBool b) = (py_str repr (JBool b), []))
  /\ (forall ss : list pystr,
        coerce_desc_value repr (JList (JStr <$> ss)) =
        (join [LF] (filter (fun s => s ≠ []) (strip <$> ss)), []))
  /\ (forall ms : list (gmap pystr json),
        coerce_desc_value repr (JList (JDict <$> ms)) =
        ([], omap (fun e => block_from_mapping repr (JDict e.2) (Some e.1))
               (enumerate ms)))
  /\ (forall items,
        coerce_desc_value repr (JList items) =
        (table_plain items, table_blocks repr items))
  /\ (forall m,
        coerce_desc_value repr (JDict m) =
        ([], option_list (block_from_mapping repr (JDict m) None))).
Proof.
  pose proof (coerce_list_spec repr) as Hlist.
  repeat split; try done.
  - intros d. unfold dict_get. by rewrite lookup_delete_eq.
  - intros ss. rewrite Hlist. unfold table_plain, table_blocks. f_equal.
    + do 2 f_equal. rewrite omap_after_fmap.
      induction ss as [|s ss IH]; csimpl; [done|]. by rewrite IH.
    + rewrite enumerate_fmap, omap_after_fmap. by apply omap_none.
  - intros ms. rewrite Hlist. unfold table_plain, table_blocks. f_equal.
    + rewrite omap_after_fmap. by rewrite omap_none.
    + by rewrite enumerate_fmap, omap_after_fmap.
Qed.

Example coerce_mixed_list :
  coerce_desc_value repr_unused
    (JList [JStr (lit " one "); JDict (mkdict [(k_text, JStr (lit "t"))]);
            JInt 3; JStr []; JStr (lit "two")])
  = (lit "one" ++ [LF] ++ lit "two",
     [{| title := POINT_PREFIX ++ lit "2"; content := lit "t" |}]).
Proof. vm_compute. reflexivity. Qed.

Example coerce_blocks_list :
  coerce_blocks repr_unused
    (JList [JStr (lit " bare "); JNull;
            JDict (mkdict [(k_label, JStr (lit "L")); (k_value, JInt 0)])])
  = [{| title := POINT_PREFIX ++ lit "1"; content := lit "bare" |};
     {| title := lit "L"; content := lit "0" |}].
Proof. vm_compute. reflexivity. Qed.

(** ** The object-to-block mapping *)

Lemma first_truthy_cons m k ks :
  first_truthy m (k :: ks) =
  if truthy (dict_get m k) then Some (dict_get m k) else first_truthy m ks.
Proof.
  unfold first_truthy. csimpl. rewrite filter_cons.
  destruct (truthy (dict_get m k)); by case_decide.
Qed.

Lemma selected_content_or m :
  selected_content m =
  py_or (py_or (py_or (py_or (dict_get m k_text) (dict_get m k_content))
                      (dict_get m k_desc))
               (dict_get m k_description))
        (dict_get m k_value).
Proof.
  unfold selected_content, py_or. rewrite !first_truthy_cons.
  destruct (truthy (dict_get m k_text)) eqn:E1; rewrite ?E1; [done|].
  destruct (truthy (dict_get m k_content)) eqn:E2; rewrite ?E2; [done|].
  destruct (truthy (dict_get m k_desc)) eqn:E3; rewrite ?E3; [done|].
  destruct (truthy (dict_get m k_description)) eqn:E4; rewrite ?E4; done.
Qed.

Lemma selected_title_or (repr : json -> pystr) m :
  selected_title repr m =
  let title_raw :=
    py_or (py_or (dict_get m k_title) (dict_get m k_label)) (dict_get m k_name) in
  if truthy title_raw then strip (py_str repr title_raw) else [].
Proof.
  unfold selected_title, TITLE_KEYS, py_or. rewrite !first_truthy_cons. simpl.
  destruct (truthy (dict_get m k_title)) eqn:E1; rewrite ?E1; [done|].
  destruct (truthy (dict_get m k_label)) eqn:E2; rewrite ?E2; [done|].
  destruct (truthy (dict_get m k_name)) eqn:E3; rewrite ?E3; done.
Qed.

(** C3, as the code has it.  The title is the trimmed [str] of the first
    true value among [title], [label], [name]; the content is the trimmed
    [str] of the first true value among [text], [content], [desc],
    [description], else of whatever [value] holds.  There is no block
    exactly when that content value is null (or absent) or trims to empty.
    When the title so selected is empty the title is "要点 {position+1}" if
    a position is supplied, else empty. *)
Theorem block_from_mapping_first_truthy (repr : json -> pystr) m idx :
  block_from_mapping repr (JDict m) idx =
    (if is_null (selected_content m)
        || negb (nonempty (strip (py_str repr (selected_content m))))
     then None
     else Some {| title := if nonempty (selected_title repr m)
                           then selected_title repr m else default_title idx;
                  content := strip (py_str repr (selected_content m)) |})
  /\ (block_from_mapping repr (JDict m) idx = None <->
      selected_content m = JNull
      \/ strip (py_str repr (selected_content m)) = []).
Proof.
  assert (H : block_from_mapping repr (JDict m) idx =
    (if is_null (selected_content m)
        || negb (nonempty (strip (py_str repr (selected_content m))))
     then None
     else Some {| title := if nonempty (selected_title repr m)
                           then selected_title repr m else default_title idx;
                  content := strip (py_str repr (selected_content m)) |})).
  { rewrite selected_title_or, selected_content_or. cbn zeta.
    unfold block_from_mapping.
    set (c := py_or _ (dict_get m k_value)).
    set (t := py_or _ (dict_get m k_name)).
    destruct c; cbn [is_null orb];
      (destruct (nonempty (strip (py_str repr _))) eqn:Ec; cbn [negb]; [|done])
      || done.
    all: destruct (truthy t); destruct idx; cbn [nonempty default_title];
      try done.
    all: by destruct (nonempty (strip (py_str repr t))) eqn:Et;
        [|apply nonempty_false in Et; rewrite Et]. }
  split; [exact H|]. rewrite H.
  destruct (selected_content m) eqn:Es; cbn [is_null orb].
  1: split; auto.
  all: destruct (strip (py_str repr _)) eqn:E; cbn;
    (split; [intros ?|intros [?|?]]; (discriminate || auto)).
Qed.

(** C3 as stated fails: with an empty [text] and [content] "body" the first
    present content key is [text], whose value trims to empty, so the
    statement gives no block; the code skips the empty [text] and builds
    a block from [content]. *)
Lemma block_by_presence_counterexample :
  block_from_mapping repr_unused (JDict empty_text_mapping) None
    = Some {| title := []; content := lit "body" |}
  /\ block_by_presence repr_unused empty_text_mapping None = None
  /\ block_from_mapping repr_unused (JDict empty_text_mapping) None
     <> block_by_presence repr_unused empty_text_mapping None.
Proof. vm_compute. repeat split; discriminate. Qed.

(** ** Facts about the string operations, continued *)

Lemma uint_no_space d : no_space (lit (NilEmpty.string_of_uint d)) = true.
Proof. induction d; simpl; auto. Qed.

Lemma str_of_Z_no_space z : no_space (str_of_Z z) = true.
Proof.
  unfold str_of_Z. destruct (Z.to_int z) as [d|d]; simpl.
  - destruct d; try apply uint_no_space. done.
  - destruct d; try apply (uint_no_space (_ _)); try done.
Qed.

Lemma float_char_no_space c : float_char c = true -> isspace c = false.
Proof.
  unfold float_char. intros [H|H]%orb_true_iff.
  - apply andb_true_iff in H as [H1%N.leb_le H2%N.leb_le].
    unfold isspace.
    rewrite (proj2 (N.leb_gt c 13)) by lia.
    rewrite (proj2 (N.leb_gt c 32)) by lia.
    rewrite (proj2 (N.leb_gt 8192 c)) by lia.
    rewrite !(proj2 (N.eqb_neq c _)) by lia.
    by rewrite !andb_false_r.
  - apply bool_decide_eq_true in H. vm_compute lit in H.
    repeat (apply elem_of_cons in H as [->|H]; [reflexivity|]).
    by apply elem_of_nil in H.
Qed.

Lemma float_repr_no_space x : no_space (float_repr x) = true.
Proof.
  destruct x as [r Hr]. simpl. unfold no_space.
  induction r as [|c r IH]; simpl in *; [done|].
  apply andb_true_iff in Hr as [Hc Hr].
  rewrite (float_char_no_space _ Hc). simpl. auto.
Qed.

Lemma splitlines_from_single_line cur s :
  single_line s = true ->
  splitlines_from cur s = match rev cur ++ s with [] => [] | l => [l] end.
Proof.
  revert cur. induction s as [|c s IH]; intros cur H; simpl.
  - rewrite app_nil_r. destruct cur as [|x cur]; [done|].
    simpl. by destruct (rev cur).
  - simpl in H. apply andb_true_iff in H as [Hc Hs].
    apply negb_true_iff in Hc. rewrite Hc. rewrite (IH _ Hs). simpl.
    by rewrite <- app_assoc.
Qed.

Lemma splitlines_single_line s :
  single_line s = true -> s ≠ [] -> splitlines s = [s].
Proof.
  intros H Hne. unfold splitlines. rewrite splitlines_from_single_line by done.
  by destruct s.
Qed.

Lemma single_line_app a b :
  single_line (a ++ b) = single_line a && single_line b.
Proof. apply forallb_app. Qed.


(** ** Writing edits back *)

Lemma paragraph_loop_spec (lines : list pystr) blocks current :
  finish_paragraphs (foldl paragraph_step (blocks, current) lines) =
  blocks ++ (join (lit " ") <$>
             filter (fun run => run ≠ [])
               ((current ++ (blank_split lines).1) :: (blank_split lines).2)).
Proof.
  revert blocks current.
  induction lines as [|l lines IH]; intros blocks current.
  - cbn [foldl blank_split fst snd]. rewrite app_nil_r.
    unfold finish_paragraphs. cbn [fst snd].
    destruct current; [by rewrite filter_cons_False, app_nil_r by naive_solver|].
    by rewrite filter_cons_True by done.
  - cbn [foldl blank_split paragraph_step].
    destruct (blank_split lines) as [g gs] eqn:Eg.
    destruct (nonempty (strip l)) eqn:El; cbn [fst snd].
    + rewrite IH. cbn [fst snd]. by rewrite <- app_assoc.
    + rewrite app_nil_r. destruct current as [|c cs].
      * rewrite IH. cbn [fst snd app].
        by rewrite (filter_cons_False _ []) by naive_solver.
      * rewrite IH. cbn [fst snd app].
        rewrite (filter_cons_True _ (c :: cs)) by done.
        by rewrite <- app_assoc.
Qed.

Lemma split_paragraphs_spec (text : pystr) :
  split_paragraphs text = paragraphs_of text.
Proof.
  unfold split_paragraphs, paragraphs_of.
  destruct text as [|c text]; [done|]. cbn [nonempty negb].
  pose proof (paragraph_loop_spec (splitlines (c :: text)) [] []) as H.
  destruct (foldl paragraph_step ([], []) (splitlines (c :: text))) as [b cur].
  unfold finish_paragraphs in H. cbn [fst snd app] in H.
  destruct (blank_split (splitlines (c :: text))) as [g gs]. exact H.
Qed.

Ltac key_neq := let H := fresh in intros H; vm_compute in H; discriminate H.

Lemma payload_lookup raw_meta data k :
  prepare_json_payload raw_meta data !! k =
  if decide (k = k_desc) then (fun _ => JStr (d_desc data)) <$> origin_fields raw_meta !! k_desc
  else if decide (k = k_description) then
    Some (convert_desc_for_json (dict_get (origin_fields raw_meta) k_description) (d_desc data))
  else if decide (k = k_price) then Some (JStr (d_price data))
  else if decide (k = k_name) then Some (JStr (d_name data))
  else origin_fields raw_meta !! k.
Proof.
  unfold prepare_json_payload. fold (origin_fields raw_meta).
  set (o := origin_fields raw_meta).
  assert (Hd : dict_get (<[k_price:=JStr (d_price data)]> (<[k_name:=JStr (d_name data)]> o)) k_description
               = dict_get o k_description).
  { unfold dict_get. rewrite !lookup_insert_ne by key_neq. done. }
  rewrite Hd.
  assert (Hdesc : <[k_description:=convert_desc_for_json (dict_get o k_description) (d_desc data)]>
          (<[k_price:=JStr (d_price data)]> (<[k_name:=JStr (d_name data)]> o)) !! k_desc = o !! k_desc).
  { rewrite !lookup_insert_ne by key_neq. done. }
  rewrite Hdesc.
  case_bool_decide as Hs.
  - destruct Hs as [v Hv]. rewrite Hv. cbn [fmap option_fmap option_map].
    repeat case_decide; subst; simplify_map_eq; try done.
    all: try by (exfalso; match goal with H : _ = _ |- _ => vm_compute in H; discriminate H end).
  - assert (o !! k_desc = None) as Hn by (by apply eq_None_not_Some).
    rewrite Hn. cbn [fmap option_fmap option_map].
    repeat case_decide; subst; simplify_map_eq; try done.
Qed.

Lemma payload_frame raw_meta data :
  without_live_keys (prepare_json_payload raw_meta data)
  = without_live_keys (origin_fields raw_meta).
Proof.
  apply map_eq. intros k. unfold without_live_keys.
  rewrite !lookup_delete. repeat case_decide; try done.
  rewrite payload_lookup. repeat case_decide; congruence.
Qed.

(** C4. The tree written back differs from the origin only at [name],
    [price], [description] and, when the origin had it, [desc]: without
    those four keys the two trees are equal (in particular
    [description_blocks], [sections] and [highlights] are untouched);
    [name] and [price] hold the edited strings; [desc] is overwritten
    exactly when it existed; [description] becomes the list of paragraphs
    of the trimmed edited text when it was a list, else the trimmed edited
    text as a string. *)
Theorem prepare_json_payload_frame raw_meta data :
  let origin := origin_fields raw_meta in
  let payload := prepare_json_payload raw_meta data in
  without_live_keys payload = without_live_keys origin
  /\ payload !! k_description_blocks = origin !! k_description_blocks
  /\ payload !! k_sections = origin !! k_sections
  /\ payload !! k_highlights = origin !! k_highlights
  /\ payload !! k_name = Some (JStr (d_name data))
  /\ payload !! k_price = Some (JStr (d_price data))
  /\ payload !! k_desc = (fun _ => JStr (d_desc data)) <$> origin !! k_desc
  /\ payload !! k_description =
       Some (if is_list (dict_get origin k_description)
             then JList (JStr <$> paragraphs_of (strip (d_desc data)))
             else JStr (strip (d_desc data))).
Proof.
  cbn zeta. repeat split; rewrite ?payload_lookup; try done.
  - apply payload_frame.
  - unfold convert_desc_for_json. by rewrite split_paragraphs_spec.
Qed.

Example prepare_keeps_list_shape :
  prepare_json_payload (JDict two_line_list)
    {| d_name := lit "A"; d_price := lit "200";
       d_desc := lit "line one" ++ [LF] ++ lit "line two" |}
  = mkdict [(k_name, JStr (lit "A")); (k_price, JStr (lit "200"));
            (k_description, JList [JStr (lit "line one line two")])].
Proof. apply map_eq. intros k. vm_compute. reflexivity. Qed.

(** ** The round trip *)

Lemma normalize_metadata_fields (repr : json -> pystr) d :
  exists n, normalize_metadata repr (JDict d) = inr n
    /\ n_name n = strip (py_str repr (dict_get_or d k_name (JStr [])))
    /\ n_price n = strip (py_str repr (dict_get_or d k_price (JStr [])))
    /\ n_description n = description_text repr d.
Proof.
  unfold normalize_metadata, description_text.
  destruct (coerce_desc_value repr (dict_get d k_description)) as [t b].
  eexists. split; [reflexivity|]. done.
Qed.

Lemma scalar_stripped (repr : json -> pystr) v :
  is_list v = false -> stripped (coerce_desc_value repr v).1.
Proof.
  destruct v; intros H; try discriminate H; cbn [coerce_desc_value fst].
  - done.
  - by destruct b.
  - apply stripped_no_space, str_of_Z_no_space.
  - apply stripped_no_space, float_repr_no_space.
  - apply strip_stripped.
  - done.
Qed.

Lemma string_entries_stripped items :
  Forall stripped (omap string_entry items).
Proof.
  induction items as [|v items IH]; csimpl; [constructor|].
  destruct v; cbn [string_entry]; try done.
  constructor; [apply strip_stripped|done].
Qed.



Lemma split_paragraphs_single_line t :
  stripped t -> single_line t = true -> t ≠ [] -> split_paragraphs t = [t].
Proof.
  intros Hs Hl Hne. unfold split_paragraphs.
  apply nonempty_true in Hne as Hn. rewrite Hn. cbn [negb].
  rewrite splitlines_single_line by done.
  cbn [foldl paragraph_step]. rewrite Hs, Hn. done.
Qed.

Lemma coerce_converted (repr : json -> pystr) v t :
  stripped t ->
  is_list v = false \/ single_line t = true ->
  (coerce_desc_value repr (convert_desc_for_json v t)).1 = t.
Proof.
  intros Hs H. unfold convert_desc_for_json. rewrite Hs.
  destruct (is_list v) eqn:Ev.
  - destruct H as [H|H]; [discriminate H|].
    destruct (nonempty t) eqn:Et.
    + apply nonempty_true in Et as Hne.
      rewrite split_paragraphs_single_line by done.
      cbn. by rewrite Hs, Et.
    + apply nonempty_false in Et. by subst.
  - cbn. exact Hs.
Qed.






Example normalize_two_line_list :
  normalize_metadata repr_unused (JDict two_line_list)
  = inr {| n_name := lit "A"; n_price := lit "100";
           n_description := lit "line one" ++ [LF] ++ lit "line two";
           n_description_blocks := [] |}.
Proof. vm_compute. reflexivity. Qed.

Example reparse_two_line_list :
  normalize_metadata repr_unused
    (JDict (reserialized two_line_list
              {| n_name := lit "A"; n_price := lit "100";
                 n_description := lit "line one" ++ [LF] ++ lit "line two";
                 n_description_blocks := [] |}))
  = inr {| n_name := lit "A"; n_price := lit "100";
           n_description := lit "line one line two";
           n_description_blocks := [] |}.
Proof. vm_compute. reflexivity. Qed.



(** ** Legacy text *)

Lemma legacy_step_classify st raw_line :
  legacy_step st raw_line = apply_kind st (classify raw_line).
Proof.
  unfold legacy_step, classify.
  destruct (strip raw_line) as [|c line] eqn:E; [done|].
  cbn [nonempty negb]. rewrite bool_decide_eq_false_2 by done.
  generalize (c :: line). intros line'.
  destruct (startswith line' LABEL_NAME); [reflexivity|].
  destruct (startswith line' LABEL_DESC); [reflexivity|].
  destruct (startswith line' LABEL_PRICE); reflexivity.
Qed.

Lemma legacy_loop_classify lines st :
  foldl legacy_step st lines = foldl apply_kind st (classify <$> lines).
Proof.
  revert st. induction lines as [|l lines IH]; intros st; [done|].
  cbn [foldl fmap list_fmap]. by rewrite legacy_step_classify, IH.
Qed.

Lemma default_last_cons {A} (d x : A) (l : list A) :
  default d (last (x :: l)) = default x (last l).
Proof.
  destruct l as [|a l]; [done|].
  change (last (x :: a :: l)) with (last (a :: l)).
  destruct (last (a :: l)) eqn:E; [done|]. by apply last_None in E.
Qed.

Lemma kinds_loop_name ks st :
  l_name (foldl apply_kind st ks) = default (l_name st) (last (omap name_value ks)).
Proof.
  revert st. induction ks as [|k ks IH]; intros st; [done|].
  cbn [foldl]. rewrite IH.
  destruct k; csimpl; rewrite ?default_last_cons; try done;
    by destruct (collecting_desc st).
Qed.

Lemma kinds_loop_price ks st :
  l_price (foldl apply_kind st ks) = default (l_price st) (last (omap price_value ks)).
Proof.
  revert st. induction ks as [|k ks IH]; intros st; [done|].
  cbn [foldl]. rewrite IH.
  destruct k; csimpl; rewrite ?default_last_cons; try done;
    by destruct (collecting_desc st).
Qed.

Lemma kinds_loop_lines ks st :
  description_lines (foldl apply_kind st ks) =
  if existsb is_desc_line ks then last_description ks
  else description_lines st ++ (if collecting_desc st then continuation ks else []).
Proof.
  revert st. induction ks as [|k ks IH]; intros st.
  { cbn. destruct (collecting_desc st); by rewrite app_nil_r. }
  cbn [foldl]. rewrite IH.
  destruct k; cbn [apply_kind existsb is_desc_line orb last_description continuation];
    destruct (existsb is_desc_line ks); try done;
    destruct (collecting_desc st) eqn:E;
    cbn [collecting_desc description_lines]; rewrite ?E, ?app_nil_r;
    try done; by rewrite <- app_assoc.
Qed.

Lemma last_description_no_desc ks :
  existsb is_desc_line ks = false -> last_description ks = [].
Proof.
  induction ks as [|k ks IH]; [done|].
  destruct k; cbn; try done. all: exact IH.
Qed.

Lemma classify_stripped raw_line : kind_stripped (classify raw_line).
Proof.
  unfold classify. case_bool_decide; [done|].
  repeat (destruct (startswith _ _); [apply strip_stripped|]).
  apply strip_stripped.
Qed.

Lemma continuation_stripped ks :
  Forall kind_stripped ks -> Forall stripped (continuation ks).
Proof.
  induction 1 as [|k ks Hk Hks IH]; [constructor|].
  destruct k; cbn; try constructor; done.
Qed.

Lemma last_description_stripped ks :
  Forall kind_stripped ks -> Forall stripped (last_description ks).
Proof.
  induction 1 as [|k ks Hk Hks IH]; [constructor|].
  destruct k; cbn; try done.
  destruct (existsb is_desc_line ks); [done|].
  constructor; [done|]. by apply continuation_stripped.
Qed.

Lemma filter_keep_part parts :
  Forall stripped parts -> filter keep_part parts = parts.
Proof.
  induction 1 as [|p parts Hp Hps IH]; [done|].
  rewrite filter_cons_True, IH; [done|].
  unfold keep_part. rewrite Hp. destruct p; done.
Qed.

Lemma legacy_lines_spec lines :
  description_lines (foldl legacy_step legacy_init lines)
  = last_description (classify <$> lines).
Proof.
  rewrite legacy_loop_classify, kinds_loop_lines.
  destruct (existsb is_desc_line (classify <$> lines)) eqn:E; [done|].
  by rewrite last_description_no_desc.
Qed.

(** C6. Legacy parsing reads exactly the three labels: the name and the
    price are the values of the last "名称：" and "价格：" lines, the
    description is the trimmed newline-join of the last "介绍：" line with
    its continuation (the lines up to the next label, blank lines kept as
    empty lines); other lines are ignored and there are never blocks.  The
    file "名称：X\n介绍：hello\nworld\n价格：9\n" parses to name "X", price
    "9", description "hello\nworld". *)
Theorem parse_legacy_metadata_by_labels :
  (forall text, parse_legacy_metadata text = legacy_by_labels text)
  /\ (forall text, n_description_blocks (parse_legacy_metadata text) = [])
  /\ (forall repr loads,
        parse_metadata_file repr loads (lit ".txt") (Some legacy_example)
        = inr ({| n_name := lit "X"; n_price := lit "9";
                  n_description := lit "hello" ++ [LF] ++ lit "world";
                  n_description_blocks := [] |},
               JStr (strip legacy_example))).
Proof.
  split; [|split].
  - intros text. unfold parse_legacy_metadata, legacy_by_labels. cbn zeta.
    rewrite legacy_lines_spec.
    rewrite legacy_loop_classify, kinds_loop_name, kinds_loop_price.
    rewrite filter_keep_part; [done|].
    apply last_description_stripped, Forall_fmap, Forall_forall.
    intros l _. apply classify_stripped.
  - reflexivity.
  - intros repr loads. vm_compute. reflexivity.
Qed.

(** ** Parsing a metadata file *)

Lemma normalize_metadata_shape (repr : json -> pystr) raw :
  match raw with
  | JDict _ => exists n, normalize_metadata repr raw = inr n
  | _ => normalize_metadata repr raw = inl InvalidMetadataShape
  end.
Proof.
  destruct raw; try done. unfold normalize_metadata.
  destruct (coerce_desc_value repr _). eauto.
Qed.

Lemma parse_metadata_file_cases (repr : json -> pystr) loads suffix content :
  parse_metadata_file repr loads suffix (Some content) =
  let text := strip content in
  if negb (nonempty text) then inl EmptyMetadata
  else if looks_structured suffix text then
    match loads text with
    | inl msg => inl (MalformedJson msg)
    | inr raw =>
        match normalize_metadata repr raw with
        | inl err => inl err
        | inr n => inr (n, raw)
        end
    end
  else inr (parse_legacy_metadata text, JStr text).
Proof.
  assert (lstrip (strip content) = strip content) as Hl
    by (unfold strip; apply lstrip_rstrip_lstrip).
  unfold parse_metadata_file, looks_structured. cbn zeta.
  rewrite Hl. reflexivity.
Qed.

(** Settles a table of outcomes once the result is a constructor. *)
Ltac outcome_cases :=
  repeat split; intros;
  repeat match goal with
         | H : _ /\ _ |- _ => destruct H
         | H : exists _, _ |- _ => destruct H
         end;
  simplify_eq; eauto.

(** C5. Parsing fails with [EmptyMetadata] exactly when the trimmed content
    is empty; a non-empty file goes to the JSON path exactly when the
    suffix marks JSON or the trimmed content starts with an opening brace,
    and otherwise is parsed as legacy text, which cannot fail; on the JSON
    path it fails with [MalformedJson] exactly when [json.loads] fails and
    with [InvalidMetadataShape] exactly when the root is not an object. *)
Theorem parse_metadata_file_failures (repr : json -> pystr) loads suffix content :
  let text := strip content in
  let result := parse_metadata_file repr loads suffix (Some content) in
  (result = inl EmptyMetadata <-> text = [])
  /\ ((exists msg, result = inl (MalformedJson msg)) <->
      text ≠ [] /\ looks_structured suffix text = true
      /\ exists msg, loads text = inl msg)
  /\ (result = inl InvalidMetadataShape <->
      text ≠ [] /\ looks_structured suffix text = true
      /\ exists raw, loads text = inr raw /\ is_dict raw = false)
  /\ ((exists n d, result = inr (n, JDict d)) <->
      text ≠ [] /\ looks_structured suffix text = true
      /\ exists d, loads text = inr (JDict d))
  /\ (text ≠ [] /\ looks_structured suffix text = false ->
      result = inr (parse_legacy_metadata text, JStr text)).
Proof.
  cbn zeta. rewrite parse_metadata_file_cases. cbn zeta.
  destruct (strip content) as [|c text] eqn:Et.
  { cbn. outcome_cases. }
  cbn [nonempty negb]. set (t := c :: text).
  assert (t ≠ []) as Hne by done. clearbody t.
  destruct (looks_structured suffix t) eqn:Es.
  - destruct (loads t) as [msg|raw] eqn:El; [outcome_cases|].
    pose proof (normalize_metadata_shape repr raw) as Hn.
    destruct raw as [| | | | | |d];
      [rewrite Hn; outcome_cases ..|destruct Hn as [n ->]; outcome_cases].
  - outcome_cases.
Qed.

(** ** Legacy serialisation *)

Lemma splitlines_from_line cur a rest :
  single_line a = true ->
  splitlines_from cur (a ++ LF :: rest) = (rev cur ++ a) :: splitlines rest.
Proof.
  revert cur. induction a as [|c a IH]; intros cur H.
  - rewrite app_nil_r. cbn. by destruct rest.
  - cbn in H. apply andb_true_iff in H as [Hc Ha].
    apply negb_true_iff in Hc. cbn [app splitlines_from]. rewrite Hc.
    rewrite (IH _ Ha). cbn [rev]. by rewrite <- app_assoc.
Qed.

Lemma splitlines_from_app_LF n : forall x cur y,
  length x <= n ->
  splitlines_from cur (x ++ LF :: y)
  = splitlines_from cur (x ++ [LF]) ++ splitlines y.
Proof.
  induction n as [|n IH]; intros x cur y Hn.
  - destruct x; [|simpl in Hn; lia]. cbn. by destruct y.
  - destruct x as [|c x].
    { cbn. by destruct y. }
    simpl in Hn. cbn [app splitlines_from].
    destruct (islinebreak c) eqn:Ec.
    + destruct x as [|c' x].
      * cbn [app]. destruct ((c =? CR)%N && (LF =? LF)%N) eqn:E.
        -- cbn. done.
        -- cbn. by destruct y.
      * cbn [app]. destruct ((c =? CR)%N && (c' =? LF)%N) eqn:E.
        -- cbn [app]. f_equal. apply IH. simpl in Hn. lia.
        -- cbn [app]. f_equal. apply (IH (c' :: x)). simpl in *. lia.
    + apply IH. lia.
Qed.

Lemma splitlines_app_LF x y :
  splitlines (x ++ LF :: y) = splitlines (x ++ [LF]) ++ splitlines y.
Proof. by apply (splitlines_from_app_LF (length x)). Qed.

Lemma splitlines_line a rest :
  single_line a = true -> splitlines (a ++ LF :: rest) = a :: splitlines rest.
Proof. apply (splitlines_from_line []). Qed.

Lemma labels_single_line :
  single_line LABEL_NAME = true /\ single_line LABEL_DESC = true
  /\ single_line LABEL_PRICE = true.
Proof. by vm_compute. Qed.

(** C7. The legacy text is the three labelled lines name, description,
    price, each label ending in the fullwidth colon, each line ended by a
    newline: "名称：{name}\n介绍：{desc}\n价格：{price}\n".  The description
    follows the single "介绍：" label with its own newlines: when name and
    price are single lines the lines of the text are the name line, the
    lines of "介绍：{desc}\n", and the price line; when the description is
    a single line too these are exactly three lines. *)
Theorem build_legacy_text_lines data :
  build_legacy_text data =
    (LABEL_NAME ++ d_name data) ++ [LF]
    ++ (LABEL_DESC ++ d_desc data) ++ [LF]
    ++ (LABEL_PRICE ++ d_price data) ++ [LF]
  /\ last (build_legacy_text data) = Some LF
  /\ (single_line (d_name data) && single_line (d_price data) = true ->
      splitlines (build_legacy_text data) =
        (LABEL_NAME ++ d_name data)
        :: splitlines (LABEL_DESC ++ d_desc data ++ [LF])
        ++ [LABEL_PRICE ++ d_price data])
  /\ (single_line (d_name data) && single_line (d_desc data)
      && single_line (d_price data) = true ->
      splitlines (build_legacy_text data) =
        [LABEL_NAME ++ d_name data; LABEL_DESC ++ d_desc data;
         LABEL_PRICE ++ d_price data]).
Proof.
  destruct labels_single_line as (Hn & Hd & Hp).
  assert (Heq : build_legacy_text data =
    (LABEL_NAME ++ d_name data) ++ LF ::
    ((LABEL_DESC ++ d_desc data) ++ LF ::
    ((LABEL_PRICE ++ d_price data) ++ LF :: []))).
  { unfold build_legacy_text. by rewrite <- !app_assoc. }
  assert (Hthree : single_line (d_name data) && single_line (d_price data) = true ->
      splitlines (build_legacy_text data) =
        (LABEL_NAME ++ d_name data)
        :: splitlines (LABEL_DESC ++ d_desc data ++ [LF])
        ++ [LABEL_PRICE ++ d_price data]).
  { intros [H1 H3]%andb_true_iff. rewrite Heq.
    rewrite splitlines_line by (by rewrite single_line_app, Hn, H1).
    rewrite splitlines_app_LF. rewrite <- app_assoc.
    by rewrite splitlines_line by (by rewrite single_line_app, Hp, H3). }
  split; [|split; [|split]].
  - unfold build_legacy_text. by rewrite <- !app_assoc.
  - unfold build_legacy_text. rewrite !app_assoc. apply last_snoc.
  - exact Hthree.
  - intros [[H1 H2]%andb_true_iff H3]%andb_true_iff.
    rewrite Hthree by (by rewrite H1, H3).
    rewrite app_assoc.
    by rewrite splitlines_line by (by rewrite single_line_app, Hd, H2).
Qed.

Example build_legacy_text_multiline :
  splitlines (build_legacy_text
    {| d_name := lit "X"; d_price := lit "9";
       d_desc := lit "hello" ++ [LF] ++ lit "world" |})
  = [LABEL_NAME ++ lit "X"; LABEL_DESC ++ lit "hello"; lit "world";
     LABEL_PRICE ++ lit "9"].
Proof. reflexivity. Qed.

(** ** Rendering *)






Ltac case_eqb :=
  match goal with
  | |- context [(?a =? ?b)%N] => destruct (N.eqb_spec a b) as [->|?]
  | H : context [(?a =? ?b)%N] |- _ => destruct (N.eqb_spec a b) as [->|?]
  end.







Lemma render_inline_escape s : render_inline s = escape s.
Proof. by destruct s. Qed.

Lemma render_paragraph_chars s :
  render_paragraph s = flat_map paragraph_char s.
Proof.
  unfold render_paragraph.
  assert (H : replace_char LF (lit "<br />") (escape s) = flat_map paragraph_char s).
  { unfold replace_char, escape.
    induction s as [|c s IH]; [done|]. cbn [flat_map].
    rewrite flat_map_app, IH. f_equal. unfold paragraph_char, escape_char.
    repeat (case_eqb; [done|]). cbn. by case_eqb. }
  rewrite H. by destruct s.
Qed.












(** ** Image URIs *)

(** C9, as the code has it.  Under the inline-embed policy a readable
    image gives a data URI whose MIME type is "image/" followed by the
    lower-cased extension without its dots, whatever that extension is;
    the type is image/jpeg only when no extension is left. *)
Theorem to_uri_inline_mime path encoded :
  path_b64 path = Some encoded ->
  to_uri false path =
    data_uri (lit "image/" ++ (if nonempty (extension path)
                               then extension path else lit "jpeg"))
             encoded
  /\ (extension path = [] ->
      to_uri false path = data_uri (lit "image/jpeg") encoded)
  /\ (extension path ≠ [] ->
      to_uri false path = data_uri (lit "image/" ++ extension path) encoded).
Proof.
  intros H.
  assert (Hu : to_uri false path =
    data_uri (lit "image/" ++ (if nonempty (extension path)
                               then extension path else lit "jpeg")) encoded).
  { unfold to_uri, data_uri, extension. rewrite H. cbn zeta.
    by rewrite <- !app_assoc. }
  split; [exact Hu|]. split; intros He; rewrite Hu.
  - by rewrite He.
  - apply nonempty_true in He. by rewrite He.
Qed.

Lemma to_uri_inline_mime_witness :
  to_uri false (readable (lit ".png") (lit "iVBORw0KGgo=")) =
    data_uri (lit "image/png") (lit "iVBORw0KGgo=").
Proof.
  apply (to_uri_inline_mime (readable (lit ".png") (lit "iVBORw0KGgo="))
           (lit "iVBORw0KGgo=")); [reflexivity|].
  vm_compute. discriminate.
Defined.

(** C9 as stated fails: an extension the application does not know, such
    as ".xyz", is not replaced by image/jpeg. *)
Lemma to_uri_unrecognized_counterexample :
  (extension (readable (lit ".xyz") (lit "AAAA")) ∉ RECOGNIZED_EXTENSIONS)
  /\ to_uri false (readable (lit ".xyz") (lit "AAAA"))
     = lit "data:image/xyz;base64,AAAA"
  /\ to_uri false (readable (lit ".xyz") (lit "AAAA"))
     <> data_uri (mime_by_recognition (readable (lit ".xyz") (lit "AAAA")))
                 (lit "AAAA").
Proof.
  split; [|split].
  - intros H. vm_compute in H.
    repeat (apply elem_of_cons in H as [H|H]; [discriminate H|]).
    by apply elem_of_nil in H.
  - reflexivity.
  - vm_compute. discriminate.
Qed.

(** ** Loading a catalogue *)

Section StoreFacts.

Variable repr : json -> pystr.
Variable loads : pystr -> pystr + json.

Lemma load_step_keeps acc f e :
  e ∈ acc.1 -> e ∈ (load_step repr loads acc f).1.
Proof.
  destruct acc as [entries warnings]. unfold load_step. cbn [fst].
  intros He. destruct (_ || _); [done|].
  destruct (load_metadata repr loads f) as [err|[[md p] raw]]; [done|].
  cbn zeta. destruct (path_name <$> _); [|done].
  cbn [fst]. apply elem_of_app. by left.
Qed.

Lemma load_loop_keeps folders acc e :
  e ∈ acc.1 -> e ∈ (foldl (load_step repr loads) acc folders).1.
Proof.
  revert acc. induction folders as [|f folders IH]; intros acc He; [done|].
  cbn [foldl]. by apply IH, load_step_keeps.
Qed.

Lemma load_step_adds acc f md p raw :
  skipped f = false ->
  load_metadata repr loads f = inr (md, p, raw) ->
  images_present f = true ->
  exists e, e ∈ (load_step repr loads acc f).1
    /\ slug e = folder_name f
    /\ name e = (if nonempty (n_name md) then n_name md else folder_name f)
    /\ price e = n_price md
    /\ description e = n_description md.
Proof.
  intros Hs Hm Hi. destruct acc as [entries warnings].
  unfold load_step. unfold skipped in Hs. rewrite Hs, Hm. cbn zeta.
  unfold images_present in Hi.
  apply andb_true_iff in Hi as [Hi H4]. apply andb_true_iff in Hi as [Hi H3].
  apply andb_true_iff in Hi as [H1 H2].
  rewrite !filter_cons, filter_nil.
  rewrite H1, H2, H3, H4.
  repeat (case_decide; [done|]). cbn [fmap list_fmap fst].
  eexists. split; [apply elem_of_app; right; apply list_elem_of_here|].
  done.
Qed.

Lemma load_entries_adds folders f md p raw acc :
  f ∈ folders ->
  skipped f = false ->
  load_metadata repr loads f = inr (md, p, raw) ->
  images_present f = true ->
  exists e, e ∈ (foldl (load_step repr loads) acc folders).1
    /\ slug e = folder_name f
    /\ name e = (if nonempty (n_name md) then n_name md else folder_name f)
    /\ price e = n_price md
    /\ description e = n_description md.
Proof.
  intros Hin Hs Hm Hi. revert acc.
  induction folders as [|g folders IH]; intros acc.
  { by apply elem_of_nil in Hin. }
  cbn [foldl]. apply elem_of_cons in Hin as [<-|Hin].
  - destruct (load_step_adds acc f md p raw Hs Hm Hi) as (e & He & Hrest).
    exists e. split; [by apply load_loop_keeps|done].
  - by apply IH.
Qed.

Lemma parse_structured_inv suffix content n d :
  parse_metadata_file repr loads suffix content = inr (n, JDict d) ->
  normalize_metadata repr (JDict d) = inr n.
Proof.
  unfold parse_metadata_file. destruct content as [content|]; [|done].
  destruct (negb _); [done|]. destruct (_ || _); [|done].
  destruct (loads _) as [|raw]; [done|].
  destruct (normalize_metadata repr raw) eqn:E; [done|].
  intros [= <- <-]. done.
Qed.

Lemma load_metadata_structured_inv f n p d :
  load_metadata repr loads f = inr (n, p, JDict d) ->
  normalize_metadata repr (JDict d) = inr n.
Proof.
  unfold load_metadata.
  destruct (info_json f) as [c|].
  - destruct (parse_metadata_file _ _ _ c) as [|[n' raw]] eqn:E; [done|].
    intros [= <- <- ->]. by eapply parse_structured_inv.
  - destruct (info_txt f) as [c|]; [|done].
    destruct (parse_metadata_file _ _ _ c) as [|[n' raw]] eqn:E; [done|].
    intros [= <- <- ->]. by eapply parse_structured_inv.
Qed.

Lemma normalize_nameless d n :
  normalize_metadata repr (JDict d) = inr n ->
  name_missing_or_empty d -> n_name n = [].
Proof.
  intros Hn Hd.
  destruct (normalize_metadata_fields repr d) as (n0 & Hn0 & Hname & _).
  rewrite Hn in Hn0. injection Hn0 as <-. rewrite Hname.
  unfold dict_get_or. destruct Hd as [->|(s & -> & Hs)]; [done|]. exact Hs.
Qed.

(** C10. A folder that is not passed over, whose metadata parses and whose
    four images exist, yields an entry with the folder name as slug; its
    display name is the metadata name when that is not empty and the
    folder name otherwise.  For structured metadata whose [name] key is
    missing, or holds a string that trims to empty, normalisation gives
    the empty name and the entry shows the folder name. *)
Theorem load_entries_display_name folders f md p raw :
  f ∈ folders ->
  skipped f = false ->
  load_metadata repr loads f = inr (md, p, raw) ->
  images_present f = true ->
  exists e, e ∈ (load_entries repr loads folders).1
    /\ slug e = folder_name f
    /\ name e = (if nonempty (n_name md) then n_name md else folder_name f)
    /\ (forall d, raw = JDict d -> name_missing_or_empty d ->
        n_name md = [] /\ name e = folder_name f).
Proof.
  intros Hin Hs Hm Hi.
  destruct (load_entries_adds folders f md p raw ([], []) Hin Hs Hm Hi)
    as (e & He & Hslug & Hname & _).
  exists e. split; [exact He|]. split; [exact Hslug|]. split; [exact Hname|].
  intros d -> Hd.
  assert (n_name md = []) as Hnil.
  { eapply normalize_nameless; [|exact Hd].
    by eapply load_metadata_structured_inv. }
  split; [exact Hnil|]. by rewrite Hname, Hnil.
Qed.

End StoreFacts.

Lemma load_entries_display_name_witness :
  exists e, e ∈ (load_entries repr_unused loads_empty_object [nameless_folder]).1
    /\ slug e = lit "dress-01"
    /\ name e = lit "dress-01"
    /\ (forall d, JDict ∅ = JDict d -> name_missing_or_empty d ->
        n_name empty_normalized = [] /\ name e = lit "dress-01").
Proof.
  apply (load_entries_display_name repr_unused loads_empty_object
           [nameless_folder] nameless_folder empty_normalized INFO_JSON (JDict ∅)).
  - apply list_elem_of_here.
  - vm_compute. reflexivity.
  - vm_compute. reflexivity.
  - reflexivity.
Defined.

(** ** The blocks and texts of normalised metadata *)

Lemma rstrip_last (s : pystr) :
  match rstrip s with
  | [] => True
  | _ => exists c', last (rstrip s) = Some c' /\ isspace c' = false
  end.
Proof.
  induction s as [|c s IH]; [done|]. cbn [rstrip].
  destruct (rstrip s) as [|x r] eqn:E.
  - destruct (isspace c) eqn:Ec; [done|]. by exists c.
  - destruct IH as (c' & Hl & Hc'). exists c'. split; [|done].
    by rewrite last_cons, Hl.
Qed.

Lemma rstrip_clean_last (s : pystr) c' :
  last s = Some c' -> isspace c' = false -> rstrip s = s.
Proof.
  induction s as [|c s IH]; [done|]. intros Hl Hc'. cbn [rstrip].
  destruct s as [|x r].
  - cbn in Hl. injection Hl as ->. cbn. by rewrite Hc'.
  - rewrite last_cons in Hl.
    destruct (last (x :: r)) as [y|] eqn:E; [|by apply last_None in E].
    injection Hl as ->. by rewrite (IH eq_refl Hc').
Qed.

Lemma stripped_clean_ends (s : pystr) : stripped s <-> clean_ends s.
Proof.
  split.
  - intros Hs. unfold stripped, strip in Hs.
    pose proof (lstrip_head s) as Hh. pose proof (rstrip_last (lstrip s)) as Hl.
    rewrite Hs in Hl. destruct s as [|c s]; [done|].
    split; [|done].
    destruct (lstrip (c :: s)) as [|x r] eqn:E; [done|].
    destruct (rstrip_head x r Hh) as [r' Hr]. rewrite Hr in Hs.
    by injection Hs as ->.
  - destruct s as [|c s]; [done|]. intros [Hc (c' & Hl & Hc')].
    unfold stripped, strip. cbn [lstrip]. rewrite Hc.
    by eapply rstrip_clean_last.
Qed.

Lemma clean_ends_app (c : N) (a m b : pystr) (c' : N) :
  isspace c = false -> last b = Some c' -> isspace c' = false ->
  stripped ((c :: a) ++ m ++ b).
Proof.
  intros Hc Hl Hc'. apply stripped_clean_ends. split; [done|].
  exists c'. split; [|done].
  change (c :: a ++ m ++ b) with ((c :: a) ++ m ++ b).
  by rewrite !last_app, Hl.
Qed.

Lemma stripped_of_ends (s : pystr) (c c' : N) :
  head s = Some c -> isspace c = false ->
  last s = Some c' -> isspace c' = false -> stripped s.
Proof.
  intros Hh Hc Hl Hc'. apply stripped_clean_ends.
  destruct s as [|x r]; [done|]. injection Hh as ->. split; [done|].
  by exists c'.
Qed.

Lemma join_stripped (sep : pystr) (parts : list pystr) :
  Forall (fun p => p ≠ [] /\ stripped p) parts ->
  stripped (join sep parts) /\ (parts ≠ [] -> join sep parts ≠ []).
Proof.
  induction 1 as [|p parts [Hp Hs] Hps IH]; [done|].
  destruct parts as [|q rest]; [done|].
  destruct IH as [IH1 IH2]. specialize (IH2 ltac:(done)).
  destruct p as [|c p']; [done|]. split; [|done].
  change (join sep ((c :: p') :: q :: rest))
    with ((c :: p') ++ sep ++ join sep (q :: rest)).
  apply stripped_clean_ends in Hs as [Hc _].
  apply stripped_clean_ends in IH1.
  destruct (join sep (q :: rest)) as [|x r] eqn:E; [done|].
  destruct IH1 as [_ (c' & Hl & Hc')].
  by eapply clean_ends_app.
Qed.

Lemma no_space_clean_ends (s : pystr) : no_space s = true -> stripped s.
Proof. apply stripped_no_space. Qed.

Lemma default_title_stripped idx : stripped (default_title idx).
Proof.
  destruct idx as [i|]; [|done]. cbn [default_title].
  pose proof (str_of_Z_no_space (Z.of_nat (i + 1))) as Hn.
  fold (str_of_nat (i + 1)) in Hn.
  assert (str_of_nat (i + 1) ≠ []) as Hne.
  { unfold str_of_nat, str_of_Z.
    destruct (Z.to_int _) as [d|d]; cbn; destruct d; done. }
  apply stripped_no_space, stripped_clean_ends in Hn.
  destruct (str_of_nat (i + 1)) as [|x r] eqn:E; [done|].
  destruct Hn as [_ (c' & Hl & Hc')].
  by apply (clean_ends_app 35201%N [28857; 32]%N [] (x :: r) c').
Qed.

Lemma default_title_some_nonempty i : default_title (Some i) ≠ [].
Proof. done. Qed.

(** X2. A block comes only from a dict; its content is trimmed and not
    empty, its title is trimmed, and with a position the title is not
    empty. *)
Theorem block_from_mapping_invariant (repr : json -> pystr) v idx b :
  block_from_mapping repr v idx = Some b ->
  is_dict v = true
  /\ content b ≠ [] /\ stripped (content b) /\ stripped (title b)
  /\ (is_Some idx -> title b ≠ []).
Proof.
  destruct v as [| | | | | |m]; try done. intros H.
  split; [done|]. revert H.
  unfold block_from_mapping.
  set (c := py_or _ (dict_get m k_value)).
  set (t := py_or _ (dict_get m k_name)).
  assert (Hgen : forall tt,
    (if nonempty (strip (py_str repr c)) then
       Some {| title := match idx with
                        | Some i => if nonempty tt then tt
                                    else POINT_PREFIX ++ str_of_nat (i + 1)
                        | None => tt end;
               content := strip (py_str repr c) |}
     else None) = Some b -> stripped tt ->
    content b ≠ [] /\ stripped (content b) /\ stripped (title b)
    /\ (is_Some idx -> title b ≠ [])).
  { intros tt. destruct (nonempty (strip (py_str repr c))) eqn:Ec; [|done].
    intros [= <-] Ht. cbn [content title].
    split; [by apply nonempty_true|]. split; [apply strip_stripped|].
    destruct idx as [i|].
    - destruct (nonempty tt) eqn:Et.
      + split; [done|]. intros _. by apply nonempty_true.
      + split; [apply (default_title_stripped (Some i))|done].
    - split; [done|]. by intros [? ?]. }
  assert (Ht : stripped (if truthy t then strip (py_str repr t) else [])).
  { destruct (truthy t); [apply strip_stripped|done]. }
  destruct c; try done; intros H; by eapply Hgen.
Qed.

Lemma blocks_loop_spec (repr : json -> pystr) (es : list (nat * json)) bs :
  foldl (blocks_step repr) bs es = bs ++ omap (item_block repr) es.
Proof.
  revert bs. induction es as [|[i v] es IH]; intros bs.
  { cbn. by rewrite app_nil_r. }
  cbn [foldl omap list_omap]. rewrite IH. unfold item_block at 2.
  cbn [blocks_step fst snd].
  destruct v; try done.
  - destruct (nonempty (strip s)); [|done]. by rewrite <- app_assoc.
  - destruct (block_from_mapping repr (JDict fields) (Some i)); [|done].
    by rewrite <- app_assoc.
Qed.

Lemma omap_length_le {A B} (f : A -> option B) (l : list A) :
  length (omap f l) <= length l.
Proof.
  induction l as [|x l IH]; csimpl; [done|].
  destruct (f x); simpl; lia.
Qed.

(** X1. [_coerce_blocks] on a list gives, in order, the block of each
    object and a block titled "要点 {position+1}" for each bare string that
    is not blank; other items give nothing, so there are at most as many
    blocks as items.  A single object gives at most its one block, any
    other value none. *)
Theorem coerce_blocks_items (repr : json -> pystr) :
  (forall items,
     coerce_blocks repr (JList items)
     = omap (item_block repr) (enumerate items))
  /\ (forall m,
        coerce_blocks repr (JDict m)
        = option_list (block_from_mapping repr (JDict m) None))
  /\ (forall v, is_list v = false -> is_dict v = false ->
        coerce_blocks repr v = [])
  /\ (forall items,
        length (coerce_blocks repr (JList items)) <= length items).
Proof.
  assert (H : forall items, coerce_blocks repr (JList items)
                            = omap (item_block repr) (enumerate items)).
  { intros items. cbn [coerce_blocks]. by rewrite blocks_loop_spec. }
  split; [exact H|]. split; [done|]. split; [by intros []|].
  intros items. rewrite H.
  etrans; [apply omap_length_le|]. unfold enumerate. by rewrite length_imap.
Qed.

Lemma Forall_omap_some {A B} (P : B -> Prop) (f : A -> option B) (l : list A) :
  (forall x y, f x = Some y -> P y) -> Forall P (omap f l).
Proof.
  intros H. induction l as [|x l IH]; csimpl; [constructor|].
  destruct (f x) eqn:E; [|done]. constructor; [by eapply H|done].
Qed.

Lemma block_from_mapping_ok (repr : json -> pystr) v idx b :
  block_from_mapping repr v idx = Some b -> block_ok b.
Proof.
  destruct v as [| | | | | |m]; try done.
  unfold block_from_mapping, block_ok.
  set (c := py_or _ (dict_get m k_value)).
  set (t := py_or _ (dict_get m k_name)).
  assert (Ht : stripped (if truthy t then strip (py_str repr t) else [])).
  { destruct (truthy t); [apply strip_stripped|done]. }
  revert Ht. generalize (if truthy t then strip (py_str repr t) else []).
  intros tt Ht.
  assert (Hgen :
    (if nonempty (strip (py_str repr c)) then
       Some {| title := match idx with
                        | Some i => if nonempty tt then tt
                                    else POINT_PREFIX ++ str_of_nat (i + 1)
                        | None => tt end;
               content := strip (py_str repr c) |}
     else None) = Some b ->
    content b ≠ [] /\ stripped (content b) /\ stripped (title b)).
  { destruct (nonempty (strip (py_str repr c))) eqn:Ec; [|done].
    intros [= <-]. cbn [content title].
    split; [by apply nonempty_true|]. split; [apply strip_stripped|].
    destruct idx as [i|]; [|done].
    destruct (nonempty tt); [done|apply (default_title_stripped (Some i))]. }
  destruct c; try done.
Qed.

Lemma item_block_ok (repr : json -> pystr) e b :
  item_block repr e = Some b -> block_ok b.
Proof.
  unfold item_block. destruct e as [i v]. cbn [fst snd].
  destruct v; try done.
  - destruct (nonempty (strip s)) eqn:E; [|done]. intros [= <-].
    split; [by apply nonempty_true|].
    split; [apply strip_stripped|apply (default_title_stripped (Some i))].
  - apply block_from_mapping_ok.
Qed.

Lemma coerce_blocks_ok (repr : json -> pystr) v :
  Forall block_ok (coerce_blocks repr v).
Proof.
  destruct v; try constructor.
  - cbn [coerce_blocks]. rewrite blocks_loop_spec.
    apply Forall_omap_some, item_block_ok.
  - cbn [coerce_blocks].
    destruct (block_from_mapping repr (JDict fields) None) eqn:E;
      [|constructor].
    constructor; [by eapply block_from_mapping_ok|constructor].
Qed.

Lemma coerce_desc_blocks_ok (repr : json -> pystr) v :
  Forall block_ok (coerce_desc_value repr v).2.
Proof.
  destruct v; try constructor.
  - rewrite coerce_list_spec. cbn [snd]. unfold table_blocks.
    apply Forall_omap_some. intros [i x] b. unfold object_block.
    destruct (is_dict _); [apply block_from_mapping_ok|done].
  - cbn [coerce_desc_value snd].
    destruct (block_from_mapping repr (JDict fields) None) eqn:E;
      [|constructor].
    constructor; [by eapply block_from_mapping_ok|constructor].
Qed.

Lemma coerce_desc_text_stripped (repr : json -> pystr) v :
  stripped (coerce_desc_value repr v).1.
Proof.
  destruct (is_list v) eqn:E; [|by apply scalar_stripped].
  destruct v; try done. rewrite coerce_list_spec. cbn [fst].
  unfold table_plain. apply join_stripped.
  pose proof (string_entries_stripped items) as Hs.
  apply Forall_forall. intros p [Hp Hin]%list_elem_of_filter.
  split; [done|]. by apply (proj1 (Forall_forall _ _) Hs).
Qed.

Lemma normalize_metadata_blocks (repr : json -> pystr) d :
  exists n, normalize_metadata repr (JDict d) = inr n
    /\ n_description n = description_text repr d
    /\ n_description_blocks n =
         (coerce_desc_value repr (dict_get d k_description)).2
         ++ coerce_blocks repr (dict_get d k_description_blocks)
         ++ coerce_blocks repr (dict_get d k_sections)
         ++ coerce_blocks repr (dict_get d k_highlights).
Proof.
  unfold normalize_metadata, description_text.
  destruct (coerce_desc_value repr (dict_get d k_description)) as [t b].
  eexists. split; [reflexivity|]. cbn. by rewrite <- !app_assoc.
Qed.

Lemma description_text_always_stripped (repr : json -> pystr) d :
  stripped (description_text repr d).
Proof.
  unfold description_text.
  destruct (nonempty _) eqn:E; [apply coerce_desc_text_stripped|].
  destruct (dict_get d k_desc);
    try apply coerce_desc_text_stripped. apply strip_stripped.
Qed.

Lemma legacy_step_stripped st raw_line :
  stripped (l_name st) /\ stripped (l_price st) ->
  stripped (l_name (legacy_step st raw_line))
  /\ stripped (l_price (legacy_step st raw_line)).
Proof.
  intros [Hn Hp]. unfold legacy_step.
  destruct (negb _); [by destruct (collecting_desc st)|].
  destruct (startswith _ LABEL_NAME); [split; [apply strip_stripped|done]|].
  destruct (startswith _ LABEL_DESC); [done|].
  destruct (startswith _ LABEL_PRICE); [split; [done|apply strip_stripped]|].
  by destruct (collecting_desc st).
Qed.

Lemma legacy_loop_stripped lines st :
  stripped (l_name st) /\ stripped (l_price st) ->
  stripped (l_name (foldl legacy_step st lines))
  /\ stripped (l_price (foldl legacy_step st lines)).
Proof.
  revert st. induction lines as [|l lines IH]; intros st H; [done|].
  cbn [foldl]. by apply IH, legacy_step_stripped.
Qed.

Lemma normalize_metadata_ok (repr : json -> pystr) raw n :
  normalize_metadata repr raw = inr n -> normalized_ok n.
Proof.
  destruct raw as [| | | | | |d]; try done. intros Hn.
  destruct (normalize_metadata_fields repr d) as (n0 & Hn0 & Hname & Hprice & Hdesc).
  destruct (normalize_metadata_blocks repr d) as (n1 & Hn1 & _ & Hb).
  rewrite Hn in Hn0, Hn1. injection Hn0 as <-. injection Hn1 as <-.
  unfold normalized_ok. rewrite Hname, Hprice, Hdesc, Hb.
  split; [apply strip_stripped|]. split; [apply strip_stripped|].
  split; [apply description_text_always_stripped|].
  rewrite !Forall_app.
  auto using coerce_desc_blocks_ok, coerce_blocks_ok.
Qed.

Lemma parse_legacy_metadata_ok text : normalized_ok (parse_legacy_metadata text).
Proof.
  unfold normalized_ok, parse_legacy_metadata. cbn.
  destruct (legacy_loop_stripped (splitlines text) legacy_init) as [H1 H2]; [done|].
  split; [done|]. split; [done|]. split; [apply strip_stripped|constructor].
Qed.

(** X3. Whatever [_parse_metadata_file] returns, from either format, has
    a trimmed name, price and description, and every block has trimmed,
    non-empty content and a trimmed title. *)
Theorem parse_metadata_file_trimmed (repr : json -> pystr) loads suffix content n raw :
  parse_metadata_file repr loads suffix content = inr (n, raw) ->
  normalized_ok n.
Proof.
  unfold parse_metadata_file. destruct content as [content|]; [|done].
  destruct (negb _); [done|]. destruct (_ || _).
  - destruct (loads _) as [|raw']; [done|].
    destruct (normalize_metadata repr raw') eqn:E; [done|].
    intros [= <- <-]. by eapply normalize_metadata_ok.
  - intros [= <- <-]. apply parse_legacy_metadata_ok.
Qed.

(** ** The description markup, escaping and paragraphs *)

Lemma cards_nonempty (b : DescriptionBlock) (bs : list DescriptionBlock) :
  nonempty (concat (render_card <$> b :: bs)) = true.
Proof. done. Qed.

(** X4. The description markup is the placeholder paragraph exactly in the
    case where the description is empty and no block has content;
    otherwise it is the description paragraph (if any) followed by the
    grid of the blocks with content (if any).  It is never empty. *)
Theorem build_description_html_parts entry :
  build_description_html entry =
    (if negb (nonempty (description entry))
        && bool_decide (content_blocks entry = [])
     then NO_DESCRIPTION
     else description_paragraph entry ++ description_grid entry)
  /\ build_description_html entry ≠ [].
Proof.
  assert (H : build_description_html entry =
    (if negb (nonempty (description entry))
        && bool_decide (content_blocks entry = [])
     then NO_DESCRIPTION
     else description_paragraph entry ++ description_grid entry)).
  { unfold build_description_html, description_paragraph, description_grid,
      content_blocks.
    destruct (description_blocks entry) as [|d dbs] eqn:Ed.
    - rewrite filter_nil. cbn [bool_decide]. rewrite bool_decide_eq_true_2 by done.
      destruct (nonempty (description entry)); cbn [negb andb concat];
        by rewrite ?app_nil_r.
    - cbn zeta.
      destruct (filter _ (d :: dbs)) as [|b bs] eqn:Ef.
      + rewrite bool_decide_eq_true_2 by done. cbn [fmap list_fmap concat nonempty].
        destruct (nonempty (description entry)); cbn [negb andb concat];
          by rewrite ?app_nil_r.
      + rewrite bool_decide_eq_false_2 by done. rewrite andb_false_r.
        rewrite cards_nonempty.
        destruct (nonempty (description entry)); cbn [app concat];
          by rewrite ?app_nil_r. }
  split; [exact H|]. rewrite H.
  unfold description_paragraph, description_grid.
  destruct (nonempty (description entry)); cbn [negb andb]; [done|].
  case_bool_decide as Hc; [done|].
  by destruct (content_blocks entry).
Qed.

(** ** Escaping is lossless *)

Lemma escape_char_inj c c' s s' :
  escape_char c ++ s = escape_char c' ++ s' -> c = c' /\ s = s'.
Proof.
  unfold escape_char.
  repeat case_eqb; cbn; intros H; simplify_eq; done.
Qed.

Lemma escape_inj s t : escape s = escape t -> s = t.
Proof.
  revert t. unfold escape.
  induction s as [|c s IH]; intros [|c' t]; cbn [flat_map].
  - done.
  - unfold escape_char. repeat case_eqb; done.
  - unfold escape_char. repeat case_eqb; done.
  - intros [-> H]%escape_char_inj. f_equal. by apply IH.
Qed.

Lemma paragraph_char_inj c c' s s' :
  paragraph_char c ++ flat_map paragraph_char s
  = paragraph_char c' ++ flat_map paragraph_char s' ->
  c = c' /\ flat_map paragraph_char s = flat_map paragraph_char s'.
Proof.
  unfold paragraph_char, escape_char.
  repeat case_eqb; cbn; intros H; simplify_eq; done.
Qed.

Lemma flat_map_paragraph_inj s t :
  flat_map paragraph_char s = flat_map paragraph_char t -> s = t.
Proof.
  revert t. induction s as [|c s IH]; intros [|c' t]; cbn [flat_map].
  - done.
  - unfold paragraph_char, escape_char. repeat case_eqb; done.
  - unfold paragraph_char, escape_char. repeat case_eqb; done.
  - intros [-> H]%paragraph_char_inj. f_equal. by apply IH.
Qed.

(** X5. Escaping loses nothing: two texts with the same inline rendering,
    or the same paragraph rendering, are equal. *)
Theorem render_text_injective :
  (forall s t, render_inline s = render_inline t -> s = t)
  /\ (forall s t, render_paragraph s = render_paragraph t -> s = t).
Proof.
  split; intros s t.
  - rewrite !render_inline_escape. apply escape_inj.
  - rewrite !render_paragraph_chars. apply flat_map_paragraph_inj.
Qed.

(** ** Paragraphs *)

Lemma single_line_rev s : single_line (rev s) = single_line s.
Proof.
  unfold single_line. induction s as [|c s IH]; [done|].
  cbn [rev]. rewrite forallb_app, IH. cbn. rewrite andb_true_r. apply andb_comm.
Qed.

Lemma splitlines_from_single_lines n : forall s cur,
  length s <= n -> single_line cur = true ->
  Forall (fun l => single_line l = true) (splitlines_from cur s).
Proof.
  induction n as [|n IH]; intros s cur Hn Hc.
  - destruct s; [|simpl in Hn; lia]. cbn. destruct cur; [constructor|].
    constructor; [by rewrite single_line_rev|constructor].
  - destruct s as [|c s].
    { cbn. destruct cur; [constructor|].
      constructor; [by rewrite single_line_rev|constructor]. }
    simpl in Hn. cbn [splitlines_from]. destruct (islinebreak c) eqn:E.
    + destruct s as [|c' s'].
      * constructor; [by rewrite single_line_rev|constructor].
      * simpl in Hn. destruct (_ && _);
          (constructor; [by rewrite single_line_rev|]);
          apply IH; simpl; (done || lia).
    + apply IH; [lia|]. unfold single_line in *. cbn [forallb].
      by rewrite E, Hc.
Qed.

Lemma splitlines_single_lines s :
  Forall (fun l => single_line l = true) (splitlines s).
Proof. by apply (splitlines_from_single_lines (length s)). Qed.

Lemma forallb_lstrip (P : N -> bool) s :
  forallb P s = true -> forallb P (lstrip s) = true.
Proof.
  induction s as [|c s IH]; [done|]. cbn [lstrip].
  destruct (isspace c); [|done]. cbn. intros [_ H]%andb_true_iff. auto.
Qed.

Lemma forallb_rstrip (P : N -> bool) s :
  forallb P s = true -> forallb P (rstrip s) = true.
Proof.
  induction s as [|c s IH]; [done|]. cbn [rstrip forallb].
  intros [Hc Hs]%andb_true_iff. specialize (IH Hs).
  destruct (rstrip s); [destruct (isspace c); cbn; by rewrite ?Hc|].
  cbn [forallb]. by rewrite Hc.
Qed.

Lemma single_line_strip s : single_line s = true -> single_line (strip s) = true.
Proof. intros H. by apply forallb_rstrip, forallb_lstrip. Qed.

Lemma single_line_join_space parts :
  Forall (fun l => single_line l = true) parts ->
  single_line (join (lit " ") parts) = true.
Proof.
  induction 1 as [|p parts Hp Hps IH]; [done|].
  destruct parts as [|q rest]; [done|].
  change (join (lit " ") (p :: q :: rest))
    with (p ++ lit " " ++ join (lit " ") (q :: rest)).
  by rewrite !single_line_app, Hp, IH.
Qed.

Lemma blank_split_lines lines :
  Forall (fun l => single_line l = true) lines ->
  Forall paragraph_ok (blank_split lines).1
  /\ Forall (Forall paragraph_ok) (blank_split lines).2.
Proof.
  induction 1 as [|l lines Hl Hls [IH1 IH2]]; [by repeat constructor|].
  cbn [blank_split]. destruct (blank_split lines) as [g gs].
  destruct (nonempty (strip l)) eqn:E; cbn [fst snd] in *.
  - split; [|done]. constructor; [|done].
    split; [by apply nonempty_true|].
    split; [apply strip_stripped|by apply single_line_strip].
  - split; [constructor|by constructor].
Qed.

Lemma run_paragraph_ok (run : list pystr) :
  run ≠ [] -> Forall paragraph_ok run -> paragraph_ok (join (lit " ") run).
Proof.
  intros Hne Hrun. unfold paragraph_ok.
  destruct (join_stripped (lit " ") run) as [H1 H2].
  { eapply Forall_impl; [exact Hrun|]. by intros l (?&?&?). }
  split; [by apply H2|]. split; [done|].
  apply single_line_join_space. eapply Forall_impl; [exact Hrun|].
  by intros l (?&?&?).
Qed.

(** X6. Every paragraph [_split_paragraphs] returns is non-empty, trimmed
    and free of line boundaries. *)
Theorem split_paragraphs_ok text :
  Forall paragraph_ok (split_paragraphs text).
Proof.
  rewrite split_paragraphs_spec. unfold paragraphs_of.
  destruct (blank_split_lines (splitlines text) (splitlines_single_lines text))
    as [H1 H2].
  destruct (blank_split (splitlines text)) as [g gs]. cbn [fst snd] in *.
  apply Forall_fmap, Forall_forall.
  intros run [Hne Hin]%list_elem_of_filter. cbn.
  apply run_paragraph_ok; [done|].
  apply elem_of_cons in Hin as [->|Hin]; [done|].
  by apply (proj1 (Forall_forall _ _) H2).
Qed.

Lemma splitlines_join_lines (ps : list pystr) :
  Forall paragraph_ok ps -> splitlines (join [LF] ps) = ps.
Proof.
  induction 1 as [|p ps (Hne & _ & Hl) Hps IH]; [done|].
  destruct ps as [|q rest]; [by apply splitlines_single_line|].
  change (join [LF] (p :: q :: rest)) with (p ++ LF :: join [LF] (q :: rest)).
  by rewrite splitlines_line, IH.
Qed.

Lemma paragraph_loop_lines (ps : list pystr) blocks current :
  Forall paragraph_ok ps ->
  foldl paragraph_step (blocks, current) ps = (blocks, current ++ ps).
Proof.
  intros H. revert current.
  induction H as [|p ps (Hne & Hs & _) Hps IH]; intros current.
  { by rewrite app_nil_r. }
  cbn [foldl paragraph_step]. rewrite Hs.
  apply nonempty_true in Hne. rewrite Hne, IH. by rewrite <- app_assoc.
Qed.

Lemma split_paragraphs_join (ps : list pystr) :
  ps ≠ [] -> Forall paragraph_ok ps ->
  split_paragraphs (join [LF] ps) = [join (lit " ") ps].
Proof.
  intros Hne Hps. unfold split_paragraphs.
  destruct (join_stripped [LF] ps) as [_ Hj].
  { eapply Forall_impl; [exact Hps|]. by intros l (?&?&?). }
  specialize (Hj Hne). apply nonempty_true in Hj. rewrite Hj. cbn [negb].
  rewrite splitlines_join_lines, paragraph_loop_lines by done.
  by destruct ps.
Qed.

Lemma table_blocks_strings (repr : json -> pystr) (ps : list pystr) :
  table_blocks repr (JStr <$> ps) = [].
Proof.
  unfold table_blocks. rewrite enumerate_fmap, omap_after_fmap.
  by apply omap_none.
Qed.

Lemma table_plain_paragraphs (ps : list pystr) :
  Forall paragraph_ok ps -> table_plain (JStr <$> ps) = join [LF] ps.
Proof.
  intros H. unfold table_plain. f_equal. rewrite omap_after_fmap.
  induction H as [|p ps (Hne & Hs & _) Hps IH]; [done|].
  csimpl. rewrite Hs, filter_cons_True by done. by rewrite IH.
Qed.

(** X7. When a description list holds at least one non-blank string and
    its trimmed strings are single lines, writing back the text parsed
    from it gives a list with one paragraph: those strings joined by
    spaces. *)
Theorem convert_desc_merges_lines (repr : json -> pystr) items :
  filter (fun s => s ≠ []) (omap string_entry items) ≠ [] ->
  Forall (fun p => single_line p = true)
    (filter (fun s => s ≠ []) (omap string_entry items)) ->
  convert_desc_for_json (JList items)
    (coerce_desc_value repr (JList items)).1
  = JList [JStr (join (lit " ")
                   (filter (fun s => s ≠ []) (omap string_entry items)))].
Proof.
  set (entries := filter _ _). intros Hne Hl.
  assert (Forall paragraph_ok entries) as Hok.
  { apply Forall_forall. intros p Hin. split; [|split].
    - by apply list_elem_of_filter in Hin as [? _].
    - apply list_elem_of_filter in Hin as [_ Hin].
      by apply (proj1 (Forall_forall _ _) (string_entries_stripped items)).
    - by apply (proj1 (Forall_forall _ _) Hl). }
  rewrite coerce_list_spec. cbn [fst]. unfold table_plain. fold entries.
  unfold convert_desc_for_json. cbn [is_list].
  destruct (join_stripped [LF] entries) as [Hs _].
  { eapply Forall_impl; [exact Hok|]. by intros l (?&?&?). }
  rewrite Hs. by rewrite split_paragraphs_join.
Qed.

(** ** Writing and reading back *)

Lemma rstrip_app_space (s : pystr) c :
  isspace c = true -> rstrip (s ++ [c]) = rstrip s.
Proof.
  intros Hc. induction s as [|x s IH]; cbn [app rstrip]; [by rewrite Hc|].
  by rewrite IH.
Qed.

Lemma stripped_label_line (a b : N) (v : pystr) :
  isspace a = false -> stripped v -> stripped ([a; b; COLON] ++ v).
Proof.
  intros Ha Hv. destruct v as [|x r] eqn:E.
  - apply stripped_clean_ends. split; [done|]. by exists COLON.
  - apply stripped_clean_ends in Hv as [_ (c' & Hl & Hc')].
    by apply (clean_ends_app a [b; COLON] [] (x :: r) c').
Qed.

Lemma splitlines_join_plain (ls : list pystr) (l : pystr) :
  Forall (fun p => single_line p = true) ls -> single_line l = true -> l ≠ [] ->
  splitlines (join [LF] (ls ++ [l])) = ls ++ [l].
Proof.
  intros Hls Hl Hne. induction Hls as [|p ps Hp Hps IH].
  - by apply splitlines_single_line.
  - cbn [app]. destruct (ps ++ [l]) as [|q rest] eqn:E; [by destruct ps|].
    change (join [LF] (p :: q :: rest)) with (p ++ LF :: join [LF] (q :: rest)).
    by rewrite splitlines_line, IH.
Qed.

Lemma legacy_loop_continuation (ps : list pystr) st :
  collecting_desc st = true ->
  Forall (fun p => plain_line p /\ unlabeled p) ps ->
  foldl legacy_step st ps =
  {| l_name := l_name st; l_price := l_price st;
     description_lines := description_lines st ++ ps;
     collecting_desc := true |}.
Proof.
  intros Hc H. revert st Hc.
  induction H as [|p ps [[Hs _] (H1 & H2 & H3)] Hps IH]; intros st Hc.
  { rewrite app_nil_r. destruct st. cbn in *. by subst. }
  cbn [foldl]. rewrite IH.
  - unfold legacy_step. rewrite Hs, Hc, H1, H2, H3.
    destruct p; cbn; by rewrite <- app_assoc.
  - unfold legacy_step. rewrite Hs, Hc, H1, H2, H3. by destruct p.
Qed.

Lemma label_value_of (a b : N) (v : pystr) :
  (a =? COLON)%N = false -> (b =? COLON)%N = false -> stripped v ->
  label_value ([a; b; COLON] ++ v) = v.
Proof.
  intros Ha Hb Hv. unfold label_value. cbn. by rewrite Ha, Hb.
Qed.

Lemma join_cons_app (sep a p : pystr) (ps : list pystr) :
  join sep ((a ++ p) :: ps) = a ++ join sep (p :: ps).
Proof. destruct ps; cbn [join]; by rewrite <- ?app_assoc. Qed.

Lemma join_snoc (sep x : pystr) (l : list pystr) :
  l ≠ [] -> join sep (l ++ [x]) = join sep l ++ sep ++ x.
Proof.
  induction l as [|p l IH]; [done|]. intros _.
  destruct l as [|q l]; [done|].
  change (join sep ((p :: q :: l) ++ [x]))
    with (p ++ sep ++ join sep ((q :: l) ++ [x])).
  rewrite IH by done. cbn [join]. by rewrite <- !app_assoc.
Qed.

Lemma startswith_app (p s : pystr) : startswith (p ++ s) p = true.
Proof.
  induction p as [|c p IH]; [by destruct s|].
  cbn. by rewrite N.eqb_refl, IH.
Qed.

Lemma build_legacy_text_join name price p0 ps :
  build_legacy_text
    {| d_name := name; d_price := price; d_desc := join [LF] (p0 :: ps) |}
  = join [LF] (((LABEL_NAME ++ name) :: (LABEL_DESC ++ p0) :: ps)
               ++ [LABEL_PRICE ++ price]) ++ [LF].
Proof.
  unfold build_legacy_text. cbn [d_name d_desc d_price].
  rewrite join_snoc by done.
  change (join [LF] ((LABEL_NAME ++ name) :: (LABEL_DESC ++ p0) :: ps))
    with ((LABEL_NAME ++ name) ++ [LF] ++ join [LF] ((LABEL_DESC ++ p0) :: ps)).
  rewrite join_cons_app. by rewrite <- !app_assoc.
Qed.

Lemma legacy_lines_read name price p0 ps :
  plain_line name -> plain_line price -> plain_line p0 ->
  Forall (fun p => plain_line p /\ unlabeled p) ps ->
  foldl legacy_step legacy_init
    (((LABEL_NAME ++ name) :: (LABEL_DESC ++ p0) :: ps)
     ++ [LABEL_PRICE ++ price])
  = {| l_name := name; l_price := price; description_lines := p0 :: ps;
       collecting_desc := false |}.
Proof.
  intros [Hn _] [Hp _] [H0 _] Hps.
  rewrite foldl_app. cbn [foldl].
  assert (H1 : legacy_step legacy_init (LABEL_NAME ++ name)
               = {| l_name := name; l_price := []; description_lines := [];
                    collecting_desc := false |}).
  { unfold legacy_step, LABEL_NAME.
    rewrite (stripped_label_line 21517 31216 name eq_refl Hn).
    rewrite startswith_app.
    by rewrite (label_value_of 21517 31216 name eq_refl eq_refl Hn). }
  rewrite H1.
  assert (H2 : legacy_step {| l_name := name; l_price := []; description_lines := [];
                    collecting_desc := false |} (LABEL_DESC ++ p0)
               = {| l_name := name; l_price := []; description_lines := [p0];
                    collecting_desc := true |}).
  { unfold legacy_step, LABEL_DESC.
    rewrite (stripped_label_line 20171 32461 p0 eq_refl H0).
    rewrite startswith_app.
    by rewrite (label_value_of 20171 32461 p0 eq_refl eq_refl H0). }
  rewrite H2. rewrite legacy_loop_continuation by done.
  unfold legacy_step, LABEL_PRICE.
  rewrite (stripped_label_line 20215 26684 price eq_refl Hp).
  rewrite startswith_app.
  by rewrite (label_value_of 20215 26684 price eq_refl eq_refl Hp).
Qed.

(** X8. A path whose suffix is not ".json" is written as legacy text
    whatever the raw metadata was, and parsing that text gives back the
    name, the price and the description, with no blocks and the text as
    raw metadata: provided name and price are trimmed single lines and the
    description is trimmed, its lines trimmed, and no line after the first
    starts with a label. *)
Theorem write_legacy_read_back (repr : json -> pystr) loads dumps suffix
    raw_meta name price p0 ps :
  suffix ≠ lit ".json" ->
  plain_line name -> plain_line price -> plain_line p0 ->
  Forall (fun p => plain_line p /\ unlabeled p) ps ->
  stripped (join [LF] (p0 :: ps)) ->
  exists text,
    parse_metadata_file repr loads suffix
      (Some (write_metadata dumps suffix
               {| d_name := name; d_price := price;
                  d_desc := join [LF] (p0 :: ps) |} raw_meta))
    = inr ({| n_name := name; n_price := price;
              n_description := join [LF] (p0 :: ps);
              n_description_blocks := [] |}, JStr text).
Proof.
  intros Hsuf Hname Hprice Hp0 Hps Hdesc.
  unfold write_metadata. rewrite bool_decide_eq_false_2 by done.
  rewrite build_legacy_text_join.
  set (lines := ((LABEL_NAME ++ name) :: (LABEL_DESC ++ p0) :: ps)).
  set (last_line := LABEL_PRICE ++ price).
  assert (Hlast : stripped last_line)
    by (apply (stripped_label_line 20215 26684 price eq_refl), Hprice).
  assert (Hsingle : Forall (fun p => single_line p = true) lines).
  { subst lines. constructor.
    { rewrite single_line_app. by destruct Hname as [_ ->]. }
    constructor.
    { rewrite single_line_app. by destruct Hp0 as [_ ->]. }
    eapply Forall_impl; [exact Hps|]. by intros p [[_ ?] _]. }
  assert (Hsl : single_line last_line = true).
  { subst last_line. rewrite single_line_app. by destruct Hprice as [_ ->]. }
  set (text := join [LF] (lines ++ [last_line])).
  assert (Htext : stripped text).
  { subst text lines. rewrite join_snoc by done.
    apply stripped_clean_ends in Hlast.
    destruct last_line as [|x r] eqn:E; [done|].
    destruct Hlast as [_ (c' & Hl & Hc')].
    apply (stripped_of_ends _ 21517%N c'); try done.
    by rewrite !last_app, Hl. }
  assert (Hstrip : strip (text ++ [LF]) = text).
  { unfold strip.
    assert (lstrip (text ++ [LF]) = text ++ [LF]) as ->.
    { subst text lines. rewrite join_snoc by done. done. }
    rewrite rstrip_app_space by done.
    unfold stripped, strip in Htext.
    assert (lstrip text = text) as Hl.
    { subst text lines. rewrite join_snoc by done. done. }
    by rewrite Hl in Htext. }
  exists text. unfold parse_metadata_file. rewrite Hstrip.
  assert (nonempty text = true) as ->.
  { subst text lines. rewrite join_snoc by done. done. }
  cbn [negb]. rewrite bool_decide_eq_false_2 by done.
  assert (startswith (lstrip text) (lit "{") = false) as ->.
  { subst text lines. rewrite join_snoc by done. done. }
  cbn [orb]. do 2 f_equal.
  unfold parse_legacy_metadata.
  assert (last_line ≠ []) by done.
  subst text. rewrite splitlines_join_plain by done.
  subst lines last_line. rewrite legacy_lines_read by done.
  cbn [l_name l_price description_lines].
  rewrite filter_keep_part.
  - by rewrite Hdesc.
  - constructor; [apply Hp0|].
    eapply Forall_impl; [exact Hps|]. by intros p [[? _] _].
Qed.

Lemma write_legacy_read_back_witness :
  exists text,
    parse_metadata_file repr_unused loads_empty_object (lit ".txt")
      (Some (write_metadata (fun _ => []) (lit ".txt")
               {| d_name := lit "X"; d_price := lit "9";
                  d_desc := join [LF] [lit "hello"; []; lit "big world"] |}
               (JDict ∅)))
    = inr ({| n_name := lit "X"; n_price := lit "9";
              n_description := join [LF] [lit "hello"; []; lit "big world"];
              n_description_blocks := [] |}, JStr text).
Proof.
  apply (write_legacy_read_back repr_unused loads_empty_object (fun _ => [])
           (lit ".txt") (JDict ∅) (lit "X") (lit "9") (lit "hello")
           [[]; lit "big world"]).
  - by vm_compute.
  - by vm_compute.
  - by vm_compute.
  - by vm_compute.
  - repeat constructor.
  - by vm_compute.
Defined.

(** ** Saving edits and reading them back *)

Lemma normalize_prepared (repr : json -> pystr) raw_meta data :
  stripped (d_name data) -> stripped (d_price data) -> stripped (d_desc data) ->
  exists n,
    normalize_metadata repr (JDict (prepare_json_payload raw_meta data)) = inr n
    /\ n_name n = d_name data
    /\ n_price n = d_price data
    /\ (is_list (dict_get (origin_fields raw_meta) k_description) = false
        \/ single_line (d_desc data) = true ->
        n_description n = d_desc data)
    /\ n_description_blocks n =
         coerce_blocks repr (dict_get (origin_fields raw_meta) k_description_blocks)
         ++ coerce_blocks repr (dict_get (origin_fields raw_meta) k_sections)
         ++ coerce_blocks repr (dict_get (origin_fields raw_meta) k_highlights).
Proof.
  intros Hn Hp Hd.
  set (payload := prepare_json_payload raw_meta data).
  destruct (normalize_metadata_fields repr payload)
    as (n & Hnorm & Hname & Hprice & Hdesc).
  destruct (normalize_metadata_blocks repr payload) as (n1 & Hn1 & _ & Hb).
  rewrite Hnorm in Hn1. injection Hn1 as <-.
  exists n. split; [done|].
  assert (Hget : forall k, dict_get payload k = default JNull (payload !! k)) by done.
  split; [|split; [|split]].
  - rewrite Hname. unfold dict_get_or, payload. rewrite payload_lookup.
    cbn [py_str]. done.
  - rewrite Hprice. unfold dict_get_or, payload. rewrite payload_lookup.
    cbn [py_str]. done.
  - intros Hshape. rewrite Hdesc. unfold description_text.
    assert (dict_get payload k_description =
            convert_desc_for_json
              (dict_get (origin_fields raw_meta) k_description) (d_desc data)) as ->.
    { unfold dict_get at 1, payload. by rewrite payload_lookup. }
    rewrite coerce_converted by done.
    destruct (nonempty (d_desc data)) eqn:E; [done|].
    apply nonempty_false in E.
    unfold dict_get, payload. rewrite payload_lookup.
    case_decide; [|done].
    destruct (origin_fields raw_meta !! k_desc); cbn; by rewrite E.
  - rewrite Hb.
    assert (dict_get payload k_description =
            convert_desc_for_json
              (dict_get (origin_fields raw_meta) k_description) (d_desc data)) as ->.
    { unfold dict_get at 1, payload. by rewrite payload_lookup. }
    assert ((coerce_desc_value repr
               (convert_desc_for_json
                  (dict_get (origin_fields raw_meta) k_description)
                  (d_desc data))).2 = []) as ->.
    { unfold convert_desc_for_json. destruct (is_list _); [|done].
      by rewrite coerce_list_spec, table_blocks_strings. }
    cbn [app]. unfold dict_get, payload. by rewrite !payload_lookup.
Qed.

(** X9. Data the editor accepts has a non-empty name and price; written
    into any origin tree and normalised again it gives that name and
    price, the trimmed description when the original description value
    was not a list or the text is a single line, and only the blocks of
    [description_blocks], [sections] and [highlights]. *)
Theorem saved_edits_read_back (repr : json -> pystr) raw_meta
    name_text price_text desc_text data :
  save_changes name_text price_text desc_text = Some data ->
  exists n,
    normalize_metadata repr (JDict (prepare_json_payload raw_meta data)) = inr n
    /\ n_name n = strip name_text /\ n_name n ≠ []
    /\ n_price n = strip price_text /\ n_price n ≠ []
    /\ (is_list (dict_get (origin_fields raw_meta) k_description) = false
        \/ single_line (strip desc_text) = true ->
        n_description n = strip desc_text)
    /\ n_description_blocks n =
         coerce_blocks repr (dict_get (origin_fields raw_meta) k_description_blocks)
         ++ coerce_blocks repr (dict_get (origin_fields raw_meta) k_sections)
         ++ coerce_blocks repr (dict_get (origin_fields raw_meta) k_highlights).
Proof.
  unfold save_changes.
  destruct (nonempty (strip name_text)) eqn:En; [|done].
  destruct (nonempty (strip price_text)) eqn:Ep; [|done].
  cbn. intros [= <-].
  destruct (normalize_prepared repr raw_meta
              {| d_name := strip name_text; d_price := strip price_text;
                 d_desc := strip desc_text |})
    as (n & Hn & Hname & Hprice & Hdesc & Hb); try apply strip_stripped.
  cbn [d_name d_price d_desc] in *.
  exists n. rewrite Hname, Hprice.
  repeat split; try done; by apply nonempty_true.
Qed.

Lemma saved_edits_read_back_witness :
  exists n,
    normalize_metadata repr_unused
      (JDict (prepare_json_payload (JDict two_line_list)
                {| d_name := lit "B"; d_price := lit "200";
                   d_desc := lit "new text" |})) = inr n
    /\ n_name n = strip (lit " B ") /\ n_name n ≠ []
    /\ n_price n = strip (lit "200") /\ n_price n ≠ []
    /\ (is_list (dict_get (origin_fields (JDict two_line_list)) k_description) = false
        \/ single_line (strip (lit "new text ")) = true ->
        n_description n = strip (lit "new text "))
    /\ n_description_blocks n =
         coerce_blocks repr_unused
           (dict_get (origin_fields (JDict two_line_list)) k_description_blocks)
         ++ coerce_blocks repr_unused
              (dict_get (origin_fields (JDict two_line_list)) k_sections)
         ++ coerce_blocks repr_unused
              (dict_get (origin_fields (JDict two_line_list)) k_highlights).
Proof.
  apply (saved_edits_read_back repr_unused (JDict two_line_list)
           (lit " B ") (lit "200") (lit "new text ")).
  by vm_compute.
Defined.

Lemma create_metadata_lookup data :
  create_metadata data !! k_name = Some (JStr (d_name data))
  /\ create_metadata data !! k_price = Some (JStr (d_price data))
  /\ create_metadata data !! k_description = Some (JStr (d_desc data))
  /\ (forall k, k ≠ k_name -> k ≠ k_description -> k ≠ k_price ->
      create_metadata data !! k = None).
Proof.
  unfold create_metadata. split; [|split; [|split]].
  - rewrite !lookup_insert_ne by key_neq. apply lookup_insert_eq.
  - apply lookup_insert_eq.
  - rewrite lookup_insert_ne by key_neq. apply lookup_insert_eq.
  - intros k H1 H2 H3. by rewrite !lookup_insert_ne, lookup_empty.
Qed.

(** X10. The metadata written for a new product normalises to the trimmed
    name, price and description of the dialog, without blocks; and the
    dialog accepts only a non-blank name and price and, when images are
    required, four chosen files. *)
Theorem created_metadata_read_back (repr : json -> pystr)
    name_text price_text desc_text :
  normalize_metadata repr
    (JDict (create_metadata (get_data name_text price_text desc_text)))
  = inr {| n_name := strip name_text; n_price := strip price_text;
           n_description := strip desc_text; n_description_blocks := [] |}
  /\ (forall require_images file_paths,
        dialog_accept require_images file_paths name_text price_text = true ->
        strip name_text ≠ [] /\ strip price_text ≠ []
        /\ (require_images = true -> Forall (fun p => p ≠ []) file_paths)).
Proof.
  split.
  - unfold normalize_metadata, dict_get_or, dict_get.
    destruct (create_metadata_lookup (get_data name_text price_text desc_text))
      as (Hn & Hp & Hd & Ho).
    unfold get_data in *. cbn [d_name d_price d_desc] in *.
    rewrite Hn, Hp, Hd.
    rewrite (Ho k_desc), (Ho k_description_blocks), (Ho k_sections),
      (Ho k_highlights) by key_neq.
    cbn. rewrite !strip_idemp.
    fold (strip (strip name_text)). fold (strip (strip price_text)).
    rewrite !strip_idemp.
    by destruct (nonempty (strip desc_text)).
  - intros require_images file_paths. unfold dialog_accept.
    destruct (require_images && _) eqn:Ei; [done|].
    destruct (nonempty (strip name_text)) eqn:En; [|done].
    destruct (nonempty (strip price_text)) eqn:Ep; [|done].
    intros _. split; [by apply nonempty_true|]. split; [by apply nonempty_true|].
    intros ->. cbn in Ei. apply negb_false_iff in Ei.
    apply Forall_forall. intros p Hin.
    rewrite forallb_forall in Ei. apply nonempty_true, Ei.
    by apply list_elem_of_In.
Qed.

(** ** The catalogue as a whole *)

Section MoreStoreFacts.

Variable repr : json -> pystr.
Variable loads : pystr -> pystr + json.

Lemma load_step_one acc f :
  load_step repr loads acc f =
  match load_one repr loads f with
  | None => acc
  | Some (inl w) => (acc.1, acc.2 ++ [w])
  | Some (inr e) => (acc.1 ++ [e], acc.2)
  end.
Proof.
  destruct acc as [entries warnings]. unfold load_step, load_one, skipped.
  destruct (_ || _); [done|].
  destruct (load_metadata repr loads f) as [err|[[md p] raw]]; [done|].
  cbn zeta. fold (missing_images f). by destruct (missing_images f).
Qed.

Lemma load_loop_one folders acc :
  foldl (load_step repr loads) acc folders =
  (acc.1 ++ omap (fun f => load_one repr loads f ≫= entry_part) folders,
   acc.2 ++ omap (fun f => load_one repr loads f ≫= warning_part) folders).
Proof.
  revert acc. induction folders as [|f folders IH]; intros [entries warnings].
  { cbn. by rewrite !app_nil_r. }
  cbn [foldl]. rewrite IH, load_step_one. csimpl.
  destruct (load_one repr loads f) as [[w|e]|]; cbn; by rewrite <- ?app_assoc.
Qed.

Lemma load_entries_one folders :
  load_entries repr loads folders =
  (omap (fun f => load_one repr loads f ≫= entry_part) folders,
   omap (fun f => load_one repr loads f ≫= warning_part) folders).
Proof. unfold load_entries. by rewrite load_loop_one. Qed.

Lemma missing_images_nil f : missing_images f = [] <-> images_present f = true.
Proof.
  unfold missing_images, images_present.
  rewrite !filter_cons, filter_nil.
  destruct (path_exists (img_front f)), (path_exists (img_back f)),
    (path_exists (img_detail1 f)), (path_exists (img_detail2 f));
    repeat case_decide; cbn; split; congruence.
Qed.

Lemma load_one_entry f e :
  load_one repr loads f ≫= entry_part = Some e <->
  skipped f = false /\ images_present f = true
  /\ exists md p raw, load_metadata repr loads f = inr (md, p, raw)
                      /\ e = entry_of f md p raw.
Proof.
  unfold load_one. destruct (skipped f).
  { cbn. split; [done|]. by intros [? _]. }
  destruct (load_metadata repr loads f) as [err|[[md p] raw]].
  { cbn. split; [done|]. by intros (_ & _ & ? & ? & ? & ? & _). }
  pose proof (missing_images_nil f) as Hm.
  destruct (missing_images f) as [|x l]; cbn.
  - split.
    + intros [= <-]. split; [done|]. split; [by apply Hm|]. eauto.
    + intros (_ & _ & md' & p' & raw' & [= <- <- <-] & ->). done.
  - split; [done|]. intros (_ & Hi & _). apply Hm in Hi. done.
Qed.


(** X12. Every loaded entry comes from a folder of the listing that is
    not passed over and whose metadata loaded; it is built from that
    folder and metadata, its four images exist, and its display name is
    not empty when the folder name is not. *)
Theorem load_entries_sound folders e :
  e ∈ (load_entries repr loads folders).1 ->
  exists f md p raw,
    f ∈ folders /\ skipped f = false
    /\ load_metadata repr loads f = inr (md, p, raw)
    /\ e = entry_of f md p raw
    /\ path_exists (front e) = true /\ path_exists (back e) = true
    /\ path_exists (detail1 e) = true /\ path_exists (detail2 e) = true
    /\ (folder_name f ≠ [] -> name e ≠ []).
Proof.
  rewrite load_entries_one. cbn [fst].
  intros (f & Hin & Hf)%list_elem_of_omap.
  apply load_one_entry in Hf as (Hs & Hi & md & p & raw & Hm & ->).
  exists f, md, p, raw. repeat split; try done.
  - unfold images_present in Hi. cbn. by repeat (apply andb_true_iff in Hi as [Hi ?]).
  - unfold images_present in Hi. cbn.
    apply andb_true_iff in Hi as [Hi _]. apply andb_true_iff in Hi as [Hi _].
    by apply andb_true_iff in Hi as [_ ?].
  - unfold images_present in Hi. cbn.
    apply andb_true_iff in Hi as [Hi _]. by apply andb_true_iff in Hi as [_ ?].
  - unfold images_present in Hi. cbn. by apply andb_true_iff in Hi as [_ ?].
  - cbn. intros Hne. destruct (nonempty (n_name md)) eqn:E; [|done].
    by apply nonempty_true.
Qed.

Lemma NoDup_fmap_same {A B} (h : A -> B) (l : list A) x y :
  NoDup (h <$> l) -> x ∈ l -> y ∈ l -> h x = h y -> x = y.
Proof.
  induction l as [|a l IH]; [by intros _ ?%elem_of_nil|].
  csimpl. intros [Hnin Hnd]%NoDup_cons.
  intros [->|Hx]%elem_of_cons [->|Hy]%elem_of_cons Heq; try done.
  - exfalso. apply Hnin. rewrite Heq. by apply list_elem_of_fmap_2.
  - exfalso. apply Hnin. rewrite <- Heq. by apply list_elem_of_fmap_2.
  - by apply IH.
Qed.

Lemma load_entries_slug_folder folders e f :
  NoDup (folder_name <$> folders) ->
  e ∈ (load_entries repr loads folders).1 -> f ∈ folders ->
  slug e = folder_name f ->
  load_one repr loads f ≫= entry_part = Some e.
Proof.
  intros Hnd He Hf Hslug. rewrite load_entries_one in He. cbn [fst] in He.
  apply list_elem_of_omap in He as (g & Hg & Hone).
  assert (g = f) as ->; [|done].
  apply (NoDup_fmap_same folder_name folders); try done.
  apply load_one_entry in Hone as (_ & _ & md & p & raw & _ & ->). done.
Qed.

(** X13. A folder whose metadata fails to load is reported with that
    error and, folder names being distinct, no entry has its name as
    slug. *)
Theorem load_entries_metadata_failure folders f err :
  f ∈ folders -> skipped f = false ->
  load_metadata repr loads f = inl err ->
  MetadataWarning (folder_name f) err ∈ (load_entries repr loads folders).2
  /\ (NoDup (folder_name <$> folders) ->
      forall e, e ∈ (load_entries repr loads folders).1 ->
                slug e ≠ folder_name f).
Proof.
  intros Hin Hs Hm. split.
  - rewrite load_entries_one. cbn [snd]. apply list_elem_of_omap.
    exists f. split; [done|]. unfold load_one. by rewrite Hs, Hm.
  - intros Hnd e He Hslug.
    pose proof (load_entries_slug_folder folders e f Hnd He Hin Hslug) as H.
    apply load_one_entry in H as (_ & _ & md & p & raw & H & _). congruence.
Qed.

(** X14. A folder with a missing image is reported with the names of the
    missing files, of which there is at least one, and, folder names being
    distinct, no entry has its name as slug. *)
Theorem load_entries_missing_image folders f md p raw :
  f ∈ folders -> skipped f = false ->
  load_metadata repr loads f = inr (md, p, raw) ->
  images_present f = false ->
  missing_images f ≠ []
  /\ MissingImagesWarning (folder_name f) (missing_images f)
       ∈ (load_entries repr loads folders).2
  /\ (NoDup (folder_name <$> folders) ->
      forall e, e ∈ (load_entries repr loads folders).1 ->
                slug e ≠ folder_name f).
Proof.
  intros Hin Hs Hm Hi.
  assert (missing_images f ≠ []) as Hne.
  { intros H%missing_images_nil. congruence. }
  split; [done|]. split.
  - rewrite load_entries_one. cbn [snd]. apply list_elem_of_omap.
    exists f. split; [done|]. unfold load_one. rewrite Hs, Hm.
    by destruct (missing_images f).
  - intros Hnd e He Hslug.
    pose proof (load_entries_slug_folder folders e f Hnd He Hin Hslug) as H.
    apply load_one_entry in H as (_ & H & _). congruence.
Qed.

(** X15. The slugs of the loaded entries are a sublist of the folder names
    in listing order, so distinct folder names give distinct slugs. *)
Theorem load_entries_order folders :
  slug <$> (load_entries repr loads folders).1
    `sublist_of` folder_name <$> folders
  /\ (NoDup (folder_name <$> folders) ->
      NoDup (slug <$> (load_entries repr loads folders).1)).
Proof.
  assert (H : slug <$> (load_entries repr loads folders).1
                `sublist_of` folder_name <$> folders).
  { rewrite load_entries_one. cbn [fst].
    induction folders as [|f folders IH]; [done|]. csimpl.
    destruct (load_one repr loads f ≫= entry_part) as [e|] eqn:E.
    - apply load_one_entry in E as (_ & _ & md & p & raw & _ & ->).
      csimpl. by apply sublist_skip.
    - by apply sublist_cons. }
  split; [exact H|]. intros Hnd. by eapply sublist_NoDup.
Qed.

End MoreStoreFacts.

Lemma load_entries_sound_witness :
  exists f md p raw,
    f ∈ sample_folders /\ skipped f = false
    /\ load_metadata repr_unused loads_empty_object f = inr (md, p, raw)
    /\ entry_of nameless_folder empty_normalized INFO_JSON (JDict ∅)
       = entry_of f md p raw
    /\ path_exists (front (entry_of nameless_folder empty_normalized INFO_JSON (JDict ∅))) = true
    /\ path_exists (back (entry_of nameless_folder empty_normalized INFO_JSON (JDict ∅))) = true
    /\ path_exists (detail1 (entry_of nameless_folder empty_normalized INFO_JSON (JDict ∅))) = true
    /\ path_exists (detail2 (entry_of nameless_folder empty_normalized INFO_JSON (JDict ∅))) = true
    /\ (folder_name f ≠ [] ->
        name (entry_of nameless_folder empty_normalized INFO_JSON (JDict ∅)) ≠ []).
Proof.
  apply (load_entries_sound repr_unused loads_empty_object sample_folders).
  vm_compute. apply list_elem_of_here.
Defined.

Lemma load_entries_metadata_failure_witness :
  MetadataWarning (lit "dress-03") (MalformedJson (lit "Expecting value"))
    ∈ (load_entries repr_unused loads_empty_object sample_folders).2
  /\ (NoDup (folder_name <$> sample_folders) ->
      forall e, e ∈ (load_entries repr_unused loads_empty_object sample_folders).1 ->
                slug e ≠ lit "dress-03").
Proof.
  apply (load_entries_metadata_failure repr_unused loads_empty_object
           sample_folders broken_folder).
  - unfold sample_folders. do 2 apply list_elem_of_further. apply list_elem_of_here.
  - by vm_compute.
  - by vm_compute.
Defined.

Lemma load_entries_missing_image_witness :
  missing_images imageless_folder ≠ []
  /\ MissingImagesWarning (lit "dress-02") (missing_images imageless_folder)
       ∈ (load_entries repr_unused loads_empty_object sample_folders).2
  /\ (NoDup (folder_name <$> sample_folders) ->
      forall e, e ∈ (load_entries repr_unused loads_empty_object sample_folders).1 ->
                slug e ≠ lit "dress-02").
Proof.
  apply (load_entries_missing_image repr_unused loads_empty_object
           sample_folders imageless_folder empty_normalized INFO_JSON (JDict ∅)).
  - unfold sample_folders. apply list_elem_of_further, list_elem_of_here.
  - by vm_compute.
  - by vm_compute.
  - by vm_compute.
Defined.

(** ** A directory for a new product *)

Lemma lit_inj (s t : string) : lit s = lit t -> s = t.
Proof.
  unfold lit. intros H.
  rewrite <- (string_of_list_ascii_of_string s),
          <- (string_of_list_ascii_of_string t).
  f_equal. revert H. generalize (list_ascii_of_string s) (list_ascii_of_string t).
  intros l. induction l as [|a l IH]; intros [|b l'] H; try done.
  cbn in H. injection H as Hab Hl. f_equal; [|by apply IH].
  rewrite <- (ascii_N_embedding a), <- (ascii_N_embedding b). by rewrite Hab.
Qed.

Lemma str_of_Z_inj (a b : Z) : str_of_Z a = str_of_Z b -> a = b.
Proof.
  unfold str_of_Z. intros H%lit_inj. apply DecimalZ.to_int_inj.
  assert (Hnn : forall z, Z.to_int z <> Decimal.Pos Decimal.Nil
                          /\ Z.to_int z <> Decimal.Neg Decimal.Nil).
  { intros [|p|p]; cbn; split; try done; intros [= Hp];
      by apply (DecimalPos.Unsigned.to_uint_nonnil p). }
  assert (Some (Z.to_int a) = Some (Z.to_int b)) as [= ->]; [|done].
  rewrite <- (NilZero.isi (Z.to_int a)), <- (NilZero.isi (Z.to_int b));
    try apply Hnn.
  by rewrite H.
Qed.

Lemma str_of_nat_inj (a b : nat) : str_of_nat a = str_of_nat b -> a = b.
Proof. unfold str_of_nat. intros H%str_of_Z_inj. lia. Qed.

Lemma candidate_inj (s : pystr) (j k : nat) :
  candidate s j = candidate s k -> j = k.
Proof.
  destruct j as [|j], k as [|k]; cbn [candidate]; unfold numbered; intros H.
  - done.
  - apply (f_equal length) in H. rewrite !length_app in H. simpl in H. lia.
  - apply (f_equal length) in H. rewrite !length_app in H. simpl in H. lia.
  - apply app_inv_head in H. apply app_inv_head in H. by apply str_of_nat_inj.
Qed.

Lemma unique_dir_loop_spec (existing : gset pystr) (s : pystr) fuel i :
  (exists k, i <= k < i + fuel
     /\ unique_dir_loop fuel existing s (candidate s i) (i + 1) = Some (candidate s k)
     /\ (candidate s k ∉ existing)
     /\ (forall j, i <= j < k -> candidate s j ∈ existing))
  \/ (unique_dir_loop fuel existing s (candidate s i) (i + 1) = None
      /\ (forall j, i <= j < i + fuel -> candidate s j ∈ existing)).
Proof.
  revert i. induction fuel as [|fuel IH]; intros i.
  { right. split; [done|]. intros j Hj. lia. }
  cbn [unique_dir_loop]. case_bool_decide as Hc.
  - replace (numbered s (i + 1)) with (candidate s (S i))
      by (cbn; by rewrite Nat.add_1_r).
    replace (i + 1 + 1) with (S i + 1) by lia.
    destruct (IH (S i)) as [(k & Hk & Hr & Hfree & Hbelow)|[Hr Hall]].
    + left. exists k. split; [lia|]. split; [done|]. split; [done|].
      intros j Hj. destruct (decide (j = i)) as [->|]; [done|].
      apply Hbelow. lia.
    + right. split; [done|]. intros j Hj.
      destruct (decide (j = i)) as [->|]; [done|]. apply Hall. lia.
  - left. exists i. split; [lia|]. split; [done|]. split; [done|].
    intros j Hj. lia.
Qed.

Lemma candidates_not_all_exist (existing : gset pystr) (s : pystr) :
  ~ (forall j, j < S (size existing) -> candidate s j ∈ existing).
Proof.
  intros Hall.
  set (l := candidate s <$> seq 0 (S (size existing))).
  assert (NoDup l) as Hnd.
  { apply NoDup_fmap_2_strong; [|apply NoDup_seq].
    intros j k _ _. apply candidate_inj. }
  assert (list_to_set l ⊆ existing) as Hsub.
  { intros c Hc. apply elem_of_list_to_set in Hc.
    apply list_elem_of_fmap in Hc as (j & -> & Hj).
    apply elem_of_seq in Hj. apply Hall. lia. }
  apply subseteq_size in Hsub.
  rewrite size_list_to_set in Hsub by done.
  subst l. rewrite length_fmap, length_seq in Hsub. lia.
Qed.

(** X16. With as many iterations as there are existing names plus one,
    [_make_unique_dir] returns the first of the candidates [name],
    [name-1], [name-2], ... that does not exist: every earlier candidate
    exists and the chosen name does not; the name is never empty. *)
Theorem make_unique_dir_free (existing : gset pystr) (base_name : pystr) :
  exists k,
    k <= size existing
    /\ make_unique_dir (S (size existing)) existing base_name
       = Some (candidate (sanitize base_name) k)
    /\ (candidate (sanitize base_name) k ∉ existing)
    /\ (forall j, j < k -> candidate (sanitize base_name) j ∈ existing)
    /\ sanitize base_name ≠ [].
Proof.
  unfold make_unique_dir.
  destruct (unique_dir_loop_spec existing (sanitize base_name)
              (S (size existing)) 0) as [(k & Hk & Hr & Hfree & Hbelow)|[_ Hall]].
  - exists k. split; [lia|]. split; [exact Hr|]. split; [done|].
    split; [intros j Hj; apply Hbelow; lia|].
    unfold sanitize. destruct (nonempty (strip base_name)) eqn:E; [|done].
    by apply nonempty_true.
  - exfalso. apply (candidates_not_all_exist existing (sanitize base_name)).
    intros j Hj. apply Hall. lia.
Qed.

Example make_unique_dir_second :
  make_unique_dir 3 {[ lit "Rose"; lit "Rose-1" ]} (lit " Rose ")
  = Some (lit "Rose-2").
Proof. by vm_compute. Qed.

(** ** Export *)



(** ** Instances *)

Lemma block_from_mapping_invariant_witness :
  is_dict padded_text_mapping = true
  /\ content {| title := POINT_PREFIX ++ lit "3"; content := lit "t" |} ≠ []
  /\ stripped (content {| title := POINT_PREFIX ++ lit "3"; content := lit "t" |})
  /\ stripped (title {| title := POINT_PREFIX ++ lit "3"; content := lit "t" |})
  /\ (is_Some (Some 2) ->
      title {| title := POINT_PREFIX ++ lit "3"; content := lit "t" |} ≠ []).
Proof.
  apply (block_from_mapping_invariant repr_unused padded_text_mapping (Some 2)).
  by vm_compute.
Defined.

Lemma parse_metadata_file_trimmed_witness :
  normalized_ok
    {| n_name := lit "X"; n_price := lit "9";
       n_description := lit "hello" ++ [LF] ++ lit "world";
       n_description_blocks := [] |}.
Proof.
  apply (parse_metadata_file_trimmed repr_unused loads_empty_object
           (lit ".txt") (Some legacy_example) _ (JStr (strip legacy_example))).
  by vm_compute.
Defined.

Lemma convert_desc_merges_lines_witness :
  convert_desc_for_json
    (JList [JStr (lit "line one"); JStr (lit "line two")])
    (coerce_desc_value repr_unused
       (JList [JStr (lit "line one"); JStr (lit "line two")])).1
  = JList [JStr (join (lit " ")
                   (filter (fun s => s ≠ [])
                      (omap string_entry
                         [JStr (lit "line one"); JStr (lit "line two")])))].
Proof.
  apply (convert_desc_merges_lines repr_unused
           [JStr (lit "line one"); JStr (lit "line two")]).
  - by vm_compute.
  - vm_compute. by repeat constructor.
Defined.
